(** * The weather panel of the 3D building viewer

    A shallow embedding of the testable core of [src/App.jsx]:
    - [Adapter]: the asynchronous function [fetchWeather];
    - [ConditionTable]: the [WMO] object and the label expression of the
      weather card;
    - [Panel]: the state hooks of [WeatherBuildingViewer], its click
      handler, its close handlers and its mount effect, run over traces of
      user and network events.

    JavaScript numbers are binary64 floats, so they are embedded as
    primitive floats; [===] on numbers is the IEEE comparison. *)

From Stdlib Require Import ZArith List String Ascii Bool Lia.
From Stdlib Require Import DecimalString DecimalPos DecimalZ.
From Stdlib Require Import Floats.PrimFloat.
Import ListNotations.
Set Warnings "-inexact-float,-register-all".
Local Open Scope string_scope.

(** ** JavaScript values and abrupt completion *)

Module JS.

(** The values the program handles: what [JSON.parse] can build, plus
    [undefined] (the result of reading a missing property) and the string
    built by [new Date().toISOString()], kept symbolic as the instant it
    was built from (milliseconds since the epoch). *)
Inductive value : Type :=
| VUndefined
| VNull
| VBool (b : bool)
| VNum (x : float)
| VStr (s : string)
| VIsoString (ms : Z)
| VArr (items : list value)
| VObj (members : list (string * value)).

(** A thrown value: an [Error] object, of which the program only ever
    reads [message]. *)
Record js_error : Type := mkError { message : string }.

(** The outcome of evaluating an expression or of awaiting a promise:
    a value, or a thrown error (a rejected promise, once awaited). *)
Inductive completion (A : Type) : Type :=
| Normal (a : A)
| Throw (e : js_error).
Arguments Normal {A} a.
Arguments Throw {A} e.

Definition bind {A B : Type} (c : completion A) (k : A -> completion B)
  : completion B :=
  match c with
  | Normal a => k a
  | Throw e => Throw e
  end.

(** [x === y] on numbers: [NaN] differs from itself, [+0] equals [-0]. *)
Definition strict_eq (x y : float) : bool := PrimFloat.eqb x y.

Definition is_nan (x : float) : bool := negb (PrimFloat.eqb x x).

(** ToBoolean. An ISO date string is never empty. *)
Definition truthy (v : value) : bool :=
  match v with
  | VUndefined | VNull => false
  | VBool b => b
  | VNum x => negb (PrimFloat.eqb x 0%float || is_nan x)
  | VStr s => negb (String.eqb s "")
  | VIsoString _ => true
  | VArr _ | VObj _ => true
  end.

Definition is_nullish (v : value) : bool :=
  match v with
  | VUndefined | VNull => true
  | _ => false
  end.

(** [v ?? d] *)
Definition coalesce (v d : value) : value :=
  if is_nullish v then d else v.

Fixpoint lookup (members : list (string * value)) (key : string)
  : value :=
  match members with
  | [] => VUndefined
  | (k, v) :: rest => if String.eqb k key then v else lookup rest key
  end.

(** [v.key], for the property names this program reads
    ([current_weather], [temperature], [windspeed], [winddirection],
    [weathercode], [time]): none of them is an own or inherited property
    of a boolean, a number, a string or an array, so only objects answer
    with something else than [undefined]; reading a property of
    [undefined] or [null] throws a TypeError. *)
Definition get (v : value) (key : string) : completion value :=
  match v with
  | VUndefined =>
      Throw (mkError ("Cannot read properties of undefined (reading '"
                      ++ key ++ "')"))
  | VNull =>
      Throw (mkError ("Cannot read properties of null (reading '"
                      ++ key ++ "')"))
  | VObj members => Normal (lookup members key)
  | _ => Normal VUndefined
  end.

(** The integers a JavaScript number holds exactly, with no other integer
    rounding to the same number ([Number.isSafeInteger]): magnitude at
    most 2^53 - 1. Only these are modelled as [Z]. *)
Definition safe_integer (n : Z) : bool :=
  Z.leb (Z.abs n) 9007199254740991.

(** [String(n)] for a safe integer [n]: the decimal numeral. Beyond the
    safe integers a number prints its shortest round-trip digits, and
    from 10^21 in exponent form, which this function does not follow:
    what is proved through it is stated for safe integers only. *)
Definition number_to_string (n : Z) : string :=
  NilZero.string_of_int (Z.to_int n).

End JS.

Import JS.

Notation "x <- c ;; k" := (JS.bind c (fun x => k))
  (at level 61, c at next level, right associativity).
Notation "v ?? d" := (JS.coalesce v d) (at level 40, left associativity).

(** ** The weather fetch adapter: [fetchWeather] *)

Module Adapter.

Record Coordinate : Type := { lat : float; lng : float }.

Record Units : Type :=
  { units_temperature : string; units_windspeed : string }.

(** The object literal both [return] statements build. *)
Record WeatherRecord : Type :=
  { temperature : value;
    windspeed : value;
    winddirection : value;
    weathercode : value;
    time : value;
    units : Units }.

(** What the environment does with the request: [fetch(url)] is rejected
    (the exchange is a [Throw]) or fulfilled with a response, whose
    [res.ok] is the status flag and whose [res.json()] is fulfilled with
    the parsed body or rejected. *)
Record Response : Type :=
  { ok : bool; json : completion value }.

Definition exchange : Type := completion Response.

(** The body of the [try] block. [now] is the clock reading
    [new Date()] takes, used only where the source evaluates it. *)
Definition fetchWeather_try (fetched : exchange) (now : Z)
  : completion WeatherRecord :=
  res <- fetched ;;
  if negb (ok res) then Throw (mkError "Weather fetch failed") else
  data <- json res ;;
  cw <- get data "current_weather" ;;
  if negb (truthy cw)
  then Throw (mkError "No current weather data available") else
  t <- get cw "temperature" ;;
  ws <- get cw "windspeed" ;;
  wd <- get cw "winddirection" ;;
  wc <- get cw "weathercode" ;;
  tm <- get cw "time" ;;
  Normal {| temperature := t ?? VStr "--";
            windspeed := ws ?? VStr "--";
            winddirection := wd ?? VStr "--";
            weathercode := wc ?? VNum 0%float;
            time := tm ?? VIsoString now;
            units := {| units_temperature := "°C";
                        units_windspeed := "km/h" |} |}.

(** The object the [catch] block returns. *)
Definition fallback (now : Z) : WeatherRecord :=
  {| temperature := VStr "--";
     windspeed := VStr "--";
     winddirection := VStr "--";
     weathercode := VNum 0%float;
     time := VIsoString now;
     units := {| units_temperature := "°C"; units_windspeed := "km/h" |} |}.

(** How the promise an async function returns is settled. *)
Inductive settled : Type :=
| Fulfilled (data : WeatherRecord)
| Rejected (e : js_error).

(** [async function fetchWeather({ lat, lng })]. The coordinate only
    goes into the request URL; [fetched] is the environment's answer to
    that request, [now] the clock when the function body resumes after
    its last [await]. *)
Definition fetchWeather (coord : Coordinate) (fetched : exchange) (now : Z)
  : settled :=
  match fetchWeather_try fetched now with
  | Normal record => Fulfilled record
  | Throw err => Fulfilled (fallback now)
  end.

(** What [console.error("Weather fetch error:", err)] writes. *)
Definition fetchWeather_logged (fetched : exchange) (now : Z)
  : list js_error :=
  match fetchWeather_try fetched now with
  | Normal _ => []
  | Throw err => [err]
  end.

(** The record the promise of [fetchWeather] is fulfilled with. *)
Definition settled_record (fetched : exchange) (now : Z) : WeatherRecord :=
  match fetchWeather_try fetched now with
  | Normal record => record
  | Throw _ => fallback now
  end.

(** A value that is neither an array nor an object. *)
Definition scalar (v : value) : bool :=
  match v with
  | VArr _ | VObj _ => false
  | _ => true
  end.

(** A record the weather grid is known to display: scalars where the
    grid prints or converts a field ([{weather.temperature}],
    [{weather.windspeed}], [Math.round(weather.winddirection)],
    [new Date(weather.time)]) and a number as condition code. The
    service's documented answers and the fallback record are of this
    kind. For other records the grid is not followed: React throws on an
    object given as a child and unmounts the tree, and a condition code
    such as the string "__proto__" finds an inherited property of
    [WMO]. *)
Definition displayable (r : WeatherRecord) : bool :=
  scalar (temperature r) && scalar (windspeed r)
  && scalar (winddirection r)
  && match weathercode r with
     | VNum _ => true
     | _ => false
     end
  && scalar (time r).

(** The shape invariant of a record: no field is [undefined]. *)
Definition defined (v : value) : bool :=
  match v with
  | VUndefined => false
  | _ => true
  end.

Definition populated (r : WeatherRecord) : bool :=
  defined (temperature r) && defined (windspeed r)
  && defined (winddirection r) && defined (weathercode r)
  && defined (time r).

(** The answers the specification calls failures: the transport fails,
    the status is not a success, the body is not JSON, or the body has
    no current-conditions section the source accepts ([!cw]). *)
Definition no_current_section (data : value) : bool :=
  match get data "current_weather" with
  | Normal cw => negb (truthy cw)
  | Throw _ => true
  end.

Definition degraded (fetched : exchange) : bool :=
  match fetched with
  | Throw _ => true
  | Normal res =>
      negb (ok res)
      || match json res with
         | Normal data => no_current_section data
         | Throw _ => true
         end
  end.

(** The five fields mapped from the service, the name each has in the
    service's section, and the value each takes when the service gives
    none. *)
Inductive field : Type :=
| Temperature
| Windspeed
| Winddirection
| Weathercode
| Time.

Definition service_name (f : field) : string :=
  match f with
  | Temperature => "temperature"
  | Windspeed => "windspeed"
  | Winddirection => "winddirection"
  | Weathercode => "weathercode"
  | Time => "time"
  end.

Definition read (f : field) (r : WeatherRecord) : value :=
  match f with
  | Temperature => temperature r
  | Windspeed => windspeed r
  | Winddirection => winddirection r
  | Weathercode => weathercode r
  | Time => time r
  end.

Definition field_fallback (f : field) (now : Z) : value :=
  match f with
  | Temperature | Windspeed | Winddirection => VStr "--"
  | Weathercode => VNum 0%float
  | Time => VIsoString now
  end.

End Adapter.

(** ** The condition code table: [WMO] *)

Module ConditionTable.

(** The object literal [WMO]: its numeric keys are stored as the
    property names ["0"], ["1"], ... *)
Definition WMO : list (string * string) :=
  [ ("0", "Clear sky");
    ("1", "Mainly clear");
    ("2", "Partly cloudy");
    ("3", "Overcast");
    ("45", "Fog");
    ("48", "Depositing rime fog");
    ("51", "Light drizzle");
    ("53", "Moderate drizzle");
    ("55", "Dense drizzle");
    ("61", "Slight rain");
    ("63", "Moderate rain");
    ("65", "Heavy rain");
    ("71", "Slight snow");
    ("73", "Moderate snow");
    ("75", "Heavy snow");
    ("95", "Thunderstorm") ].

(** [obj[key]]: [None] is [undefined]. No property inherited from
    [Object.prototype] has a numeral as its name. *)
Fixpoint property (obj : list (string * string)) (key : string)
  : option string :=
  match obj with
  | [] => None
  | (k, v) :: rest => if String.eqb k key then Some v else property rest key
  end.

(** The expression of the weather card,
    [WMO[weather.weathercode] || `Code ${weather.weathercode}`],
    at an integer code: the code is converted to a property name, and
    [||] falls through to the template literal on [undefined] and on the
    empty string. *)
Definition label_of_key (key : string) : string :=
  match property WMO key with
  | Some label => if String.eqb label "" then "Code " ++ key else label
  | None => "Code " ++ key
  end.

Definition labelFor (code : Z) : string :=
  label_of_key (number_to_string code).

(** The characters a printed number is made of. No property inherited
    from [Object.prototype] has a name made of these only, or the name
    [NaN], [Infinity] or [-Infinity], so for such a key [WMO[key]] is the
    own property [property] finds. *)
Definition numeral_char (c : ascii) : bool :=
  let n := nat_of_ascii c in
  (Nat.leb 48 n && Nat.leb n 57)
  || Nat.eqb n 43 || Nat.eqb n 45 || Nat.eqb n 46 || Nat.eqb n 101.

Fixpoint all_chars (test : ascii -> bool) (s : string) : bool :=
  match s with
  | EmptyString => true
  | String c rest => test c && all_chars test rest
  end.

(** What [String(x)] can be for a number [x]. *)
Definition printed_number (key : string) : bool :=
  all_chars numeral_char key
  || String.eqb key "NaN" || String.eqb key "Infinity"
  || String.eqb key "-Infinity".

(** The table as the specification documents it, keyed by integer. *)
Definition documented_codes : list (Z * string) :=
  [ (0, "Clear sky"); (1, "Mainly clear"); (2, "Partly cloudy");
    (3, "Overcast"); (45, "Fog"); (48, "Depositing rime fog");
    (51, "Light drizzle"); (53, "Moderate drizzle"); (55, "Dense drizzle");
    (61, "Slight rain"); (63, "Moderate rain"); (65, "Heavy rain");
    (71, "Slight snow"); (73, "Moderate snow"); (75, "Heavy snow");
    (95, "Thunderstorm") ]%Z.

(** An entry of the documented table under the property name of its
    code. *)
Definition keyed (entry : Z * string) : string * string :=
  (number_to_string (fst entry), snd entry).

Fixpoint documented (table : list (Z * string)) (code : Z)
  : option string :=
  match table with
  | [] => None
  | (k, label) :: rest =>
      if Z.eqb k code then Some label else documented rest code
  end.

(** The lookup in the specification's words: the documented label of a
    mapped code, the generated label of any other. *)
Definition spec_labelFor (code : Z) : string :=
  match documented documented_codes code with
  | Some label => label
  | None => "Code " ++ number_to_string code
  end.

End ConditionTable.

(** ** The panel state machine: [WeatherBuildingViewer] *)

Module Panel.
Import Adapter.

(** The five [useState] cells of the component. [weather] is [null]
    ([None]) until a fetch has settled. *)
Record PanelState : Type :=
  { modalOpen : bool;
    loading : bool;
    error : string;
    weather : option WeatherRecord;
    clickedCoords : Coordinate }.

Definition setModalOpen (b : bool) (s : PanelState) : PanelState :=
  {| modalOpen := b; loading := loading s; error := error s;
     weather := weather s; clickedCoords := clickedCoords s |}.

Definition setLoading (b : bool) (s : PanelState) : PanelState :=
  {| modalOpen := modalOpen s; loading := b; error := error s;
     weather := weather s; clickedCoords := clickedCoords s |}.

Definition setError (msg : string) (s : PanelState) : PanelState :=
  {| modalOpen := modalOpen s; loading := loading s; error := msg;
     weather := weather s; clickedCoords := clickedCoords s |}.

Definition setWeather (w : option WeatherRecord) (s : PanelState)
  : PanelState :=
  {| modalOpen := modalOpen s; loading := loading s; error := error s;
     weather := w; clickedCoords := clickedCoords s |}.

Definition setClickedCoords (c : Coordinate) (s : PanelState)
  : PanelState :=
  {| modalOpen := modalOpen s; loading := loading s; error := error s;
     weather := weather s; clickedCoords := c |}.

(** The guard of the early [return] in [onBuildingClick]:
    [weather && weather.time && clickedCoords.lat === coord.lat &&
     clickedCoords.lng === coord.lng], on the [weather] and
    [clickedCoords] of the render the handler was created in. *)
Definition cached (s : PanelState) (coord : Coordinate) : bool :=
  match weather s with
  | None => false
  | Some w =>
      truthy (time w)
      && strict_eq (lat (clickedCoords s)) (lat coord)
      && strict_eq (lng (clickedCoords s)) (lng coord)
  end.

(** The same rule in the specification's words: a record is present, it
    carries a timestamp, and the clicked coordinate equals the selected
    one field by field. *)
Definition cache_rule (s : PanelState) (coord : Coordinate) : Prop :=
  exists w : WeatherRecord,
    weather s = Some w /\
    truthy (time w) = true /\
    strict_eq (lat (clickedCoords s)) (lat coord) = true /\
    strict_eq (lng (clickedCoords s)) (lng coord) = true.

(** [onBuildingClick(coord)] up to its [await]: the next state, and the
    argument of the [fetchWeather] call it suspends on, if it makes
    one. *)
Definition onBuildingClick (s : PanelState) (coord : Coordinate)
  : PanelState * option Coordinate :=
  let s1 := setModalOpen true (setClickedCoords coord s) in
  if cached s coord then (s1, None)
  else (setError "" (setLoading true s1), Some coord).

(** [e.message || "Failed to fetch weather"] *)
Definition display_message (e : js_error) : string :=
  if String.eqb (message e) "" then "Failed to fetch weather"
  else message e.

(** [onBuildingClick] from its [await] on: the [try] continues or the
    [catch] runs, then the [finally]. *)
Definition onBuildingClick_resume (r : settled) (s : PanelState)
  : PanelState :=
  let s1 :=
    match r with
    | Fulfilled data => setWeather (Some data) s
    | Rejected e => setError (display_message e) s
    end in
  setLoading false s1.

(** The keydown listener [onKey]. *)
Definition onKey (key : string) (s : PanelState) : PanelState :=
  if String.eqb key "Escape" then setModalOpen false s else s.

(** The [onClick] of the backdrop and of the Close button. *)
Definition onBackdropClick (s : PanelState) : PanelState :=
  setModalOpen false s.

(** [fetchCurrentWeather] of the mount effect, up to its [await]. *)
Definition fetchCurrentWeather (s : PanelState) (coords : Coordinate)
  : PanelState * option Coordinate :=
  (setError "" (setLoading true s), Some coords).

(** [fetchCurrentWeather] from its [await] on. *)
Definition fetchCurrentWeather_resume (coords : Coordinate) (r : settled)
  (s : PanelState) : PanelState :=
  let s1 :=
    match r with
    | Fulfilled data => setClickedCoords coords (setWeather (Some data) s)
    | Rejected e => setError (display_message e) s
    end in
  setLoading false s1.

(** What the modal shows, read off the JSX: nothing when [modalOpen] is
    false, else the first of "Fetching weather...", the error text and
    the weather grid whose condition holds. [OpenLoaded] is the grid
    displayed. [OpenUnrendered] is the grid branch taken with a record
    that is not [displayable]: there the JSX of the grid is not followed
    (for an object in temperature or windspeed React throws and unmounts
    the whole tree). *)
Inductive view : Type :=
| Closed
| OpenLoading
| OpenErrored
| OpenLoaded
| OpenBlank
| OpenUnrendered.

Definition render (s : PanelState) : view :=
  if negb (modalOpen s) then Closed
  else if loading s then OpenLoading
  else if negb (String.eqb (error s) "") then OpenErrored
  else match weather s with
       | Some w => if displayable w then OpenLoaded else OpenUnrendered
       | None => OpenBlank
       end.

(** An async function suspended on [await fetchWeather(...)], with the
    coordinate its closure holds. *)
Inductive suspended : Type :=
| InClick (coord : Coordinate)
| InMount (coords : Coordinate).

Definition requested (k : suspended) : Coordinate :=
  match k with
  | InClick coord => coord
  | InMount coords => coords
  end.

Definition resume (k : suspended) (r : settled) (s : PanelState)
  : PanelState :=
  match k with
  | InClick _ => onBuildingClick_resume r s
  | InMount coords => fetchCurrentWeather_resume coords r s
  end.

(** The component between two events: its state and the fetches in
    flight, oldest first. Events are handled one at a time and the
    component re-renders after each, so a handler reads the state the
    previous event left ([useCallback] rebuilds [onBuildingClick] whenever
    [clickedCoords] or [weather] changes). *)
Record World : Type :=
  { panel : PanelState; inflight : list suspended }.

(** The events of the single task queue. [Settles i fetched now]: the
    network exchange of the [i]-th fetch in flight ends as [fetched] and
    the adapter resumes at clock [now]. *)
Inductive event : Type :=
| Click (coord : Coordinate)
| KeyDown (key : string)
| BackdropClick
| CloseButtonClick
| Settles (i : nat) (fetched : exchange) (now : Z).

Fixpoint remove_nth {A : Type} (i : nat) (l : list A) : list A :=
  match l, i with
  | [], _ => []
  | _ :: rest, O => rest
  | x :: rest, S j => x :: remove_nth j rest
  end.

Definition spawn (req : option Coordinate) (k : Coordinate -> suspended)
  : list suspended :=
  match req with
  | Some c => [k c]
  | None => []
  end.

Definition step (w : World) (e : event) : World :=
  match e with
  | Click coord =>
      let (s, req) := onBuildingClick (panel w) coord in
      {| panel := s; inflight := inflight w ++ spawn req InClick |}
  | KeyDown key =>
      {| panel := onKey key (panel w); inflight := inflight w |}
  | BackdropClick | CloseButtonClick =>
      {| panel := onBackdropClick (panel w); inflight := inflight w |}
  | Settles i fetched now =>
      match nth_error (inflight w) i with
      | None => w
      | Some k =>
          {| panel := resume k (fetchWeather (requested k) fetched now)
                        (panel w);
             inflight := remove_nth i (inflight w) |}
      end
  end.

Definition run (w : World) (trace : list event) : World :=
  fold_left step trace w.

(** The initial values of the state hooks, for the [coords] prop. *)
Definition initial (coords : Coordinate) : PanelState :=
  {| modalOpen := false; loading := false; error := "";
     weather := None; clickedCoords := coords |}.

(** The component after its first render and its mount effects. *)
Definition mounted (coords : Coordinate) : World :=
  let (s, req) := fetchCurrentWeather (initial coords) coords in
  {| panel := s; inflight := spawn req InMount |}.

Definition is_click (e : event) : bool :=
  match e with
  | Click _ => true
  | _ => false
  end.

(** The escape key, the backdrop and the Close button. *)
Definition closes (e : event) : bool :=
  match e with
  | KeyDown key => String.eqb key "Escape"
  | BackdropClick | CloseButtonClick => true
  | _ => false
  end.

(** Whether every answer of the network in a trace gives a record the
    grid is known to display. *)
Definition answers_displayable (trace : list event) : bool :=
  forallb (fun e => match e with
                    | Settles _ fetched now =>
                        displayable (settled_record fetched now)
                    | _ => true
                    end) trace.

(** The record a settled fetch hands to [setWeather], if any. *)
Definition fulfilled_with (r : settled) : option WeatherRecord :=
  match r with
  | Fulfilled data => Some data
  | Rejected _ => None
  end.

End Panel.

(** ** Concrete inputs *)

Module Scenario.
Import Adapter Panel.

(** The [coords] prop [App] passes. *)
Definition block_a : Coordinate :=
  {| lat := 12.972%float; lng := 77.593%float |}.

(** The coordinate [Scene] clicks with. *)
Definition campus : Coordinate :=
  {| lat := 12.8385%float; lng := 80.1697%float |}.

Definition harbour : Coordinate :=
  {| lat := 13.0827%float; lng := 80.2707%float |}.

(** A well-formed answer of the service. *)
Definition current (temp : float) (code : float) (at_time : string)
  : value :=
  VObj [ ("temperature", VNum temp);
         ("windspeed", VNum 11.2%float);
         ("winddirection", VNum 140%float);
         ("weathercode", VNum code);
         ("time", VStr at_time) ].

Definition served (temp : float) (code : float) (at_time : string)
  : exchange :=
  Normal {| ok := true;
            json := Normal (VObj [ ("latitude", VNum 12.875%float);
                                   ("current_weather",
                                    current temp code at_time) ]) |}.

(** An answer whose current-conditions section lacks the wind direction
    and has a null condition code. *)
Definition partial_section : value :=
  VObj [ ("temperature", VNum 29.5%float);
         ("windspeed", VNum 7%float);
         ("weathercode", VNull);
         ("time", VStr "2025-03-01T09:15") ].

Definition offline : exchange := Throw (mkError "Failed to fetch").

(** After mount: the pre-fetch settles, then a click on the building. *)
Definition warm_open : list event :=
  [ Settles 0 (served 30.1%float 1%float "2025-03-01T09:00") 100;
    Click campus ].

(** ... then the escape key, pressed while the fetch of that click is
    still in flight when the component was mounted on another
    coordinate. *)
Definition reopen_while_loading : list event :=
  warm_open ++ [ KeyDown "Escape" ].

Definition campus_answer : exchange :=
  served 31.8%float 2%float "2025-03-01T09:15".

Definition harbour_answer : exchange :=
  served 27.4%float 61%float "2025-03-01T09:30".

(** Clicks on two coordinates whose fetches settle in the reverse
    order. *)
Definition race : list event :=
  [ Settles 0 (served 30.1%float 1%float "2025-03-01T09:00") 100;
    Click campus;
    Click harbour;
    Settles 1 harbour_answer 300;
    Settles 0 campus_answer 400 ].

End Scenario.

(** ** Click or drag: the pointer handlers of [Building] *)

Module Building.

(** The two refs of the component: [pointerDownPos] and [isDragging]. *)
Record Refs : Type :=
  { pointerDownPos : float * float; isDragging : bool }.

Definition initial_refs : Refs :=
  {| pointerDownPos := (0%float, 0%float); isDragging := false |}.

(** What the handlers read of a pointer event. *)
Record PointerEvent : Type := { clientX : float; clientY : float }.

Definition handlePointerDown (e : PointerEvent) (r : Refs) : Refs :=
  {| pointerDownPos := (clientX e, clientY e); isDragging := false |}.

(** [Math.sqrt(dx * dx + dy * dy)] from the position of the last press. *)
Definition travelled (e : PointerEvent) (r : Refs) : float :=
  let (x0, y0) := pointerDownPos r in
  let dx := PrimFloat.sub (clientX e) x0 in
  let dy := PrimFloat.sub (clientY e) y0 in
  PrimFloat.sqrt (PrimFloat.add (PrimFloat.mul dx dx) (PrimFloat.mul dy dy)).

Definition handlePointerMove (e : PointerEvent) (r : Refs) : Refs :=
  if PrimFloat.ltb 2%float (travelled e r)
  then {| pointerDownPos := pointerDownPos r; isDragging := true |}
  else r.

(** [handlePointerUp]: whether it calls [onClick] (which [Scene] always
    passes). *)
Definition handlePointerUp (e : PointerEvent) (r : Refs) : bool :=
  negb (isDragging r).

End Building.

(** ** [Scene] inside [WeatherBuildingViewer]: pointer events reach the
    panel *)

Module Viewer.
Import Adapter Panel Building.

(** The literal [Scene] passes to [onBuildingClick]. *)
Definition building_coordinate : Coordinate :=
  {| lat := 12.8385%float; lng := 80.1697%float |}.

(** The refs of [Building], the [hovered] state of [Scene] and the panel
    with its fetches in flight. *)
Record Viewer : Type :=
  { refs : Refs; hovered : bool; weatherPanel : World }.

(** What reaches the component tree: pointer events over the building,
    and the keyboard, modal and network events of the panel. *)
Inductive input : Type :=
| PointerOver
| PointerOut
| PointerDown (e : PointerEvent)
| PointerMove (e : PointerEvent)
| PointerUp (e : PointerEvent)
| KeyPressed (key : string)
| BackdropClicked
| CloseClicked
| FetchSettles (i : nat) (fetched : exchange) (now : Z).

Definition with_panel (v : Viewer) (e : event) : Viewer :=
  {| refs := refs v; hovered := hovered v;
     weatherPanel := step (weatherPanel v) e |}.

Definition react (v : Viewer) (i : input) : Viewer :=
  match i with
  | PointerOver =>
      {| refs := refs v; hovered := true; weatherPanel := weatherPanel v |}
  | PointerOut =>
      {| refs := refs v; hovered := false; weatherPanel := weatherPanel v |}
  | PointerDown e =>
      {| refs := handlePointerDown e (refs v); hovered := hovered v;
         weatherPanel := weatherPanel v |}
  | PointerMove e =>
      {| refs := handlePointerMove e (refs v); hovered := hovered v;
         weatherPanel := weatherPanel v |}
  | PointerUp e =>
      if handlePointerUp e (refs v)
      then with_panel v (Click building_coordinate)
      else v
  | KeyPressed key => with_panel v (KeyDown key)
  | BackdropClicked => with_panel v BackdropClick
  | CloseClicked => with_panel v CloseButtonClick
  | FetchSettles i fetched now => with_panel v (Settles i fetched now)
  end.

Definition interact (v : Viewer) (inputs : list input) : Viewer :=
  fold_left react inputs v.

(** The tree after its first render and mount effects. *)
Definition started (coords : Coordinate) : Viewer :=
  {| refs := initial_refs; hovered := false;
     weatherPanel := mounted coords |}.

(** A pointer move that the handler does not count as a drag from the
    press at [press]. *)
Definition within_threshold (press : PointerEvent) (e : PointerEvent)
  : bool :=
  negb (PrimFloat.ltb 2%float
          (travelled e (handlePointerDown press initial_refs))).

(** The pointer events that neither press the button nor reach the
    panel directly. *)
Definition idle_pointer (i : input) : bool :=
  match i with
  | PointerOver | PointerOut | PointerMove _ | PointerUp _ => true
  | _ => false
  end.

End Viewer.

(** ** The loaded model: the two effects of the [gltfUrl] branch *)

Module Gltf.

(** A [THREE.Color]. *)
Record Color : Type := { red : float; green : float; blue : float }.

(** [new THREE.Color(0x000000)] *)
Definition black : Color :=
  {| red := 0%float; green := 0%float; blue := 0%float |}.

(** What [setRGB(0.1, 0.2, 0.6)] leaves in a colour. *)
Definition glow : Color :=
  {| red := 0.1%float; green := 0.2%float; blue := 0.6%float |}.

(** A material, as far as the effects touch it: its [emissive] colour, if
    its kind has one, and [userData._baseEmissive], if set. *)
Record Material : Type :=
  { emissive : option Color; baseEmissive : option Color }.

(** A node of the scene graph. [material] points into the store of
    materials, which meshes may share; [None] is a mesh without
    material. Meshes with an array of materials are not modelled. *)
Record Object3D : Type :=
  { isMesh : bool;
    name : string;
    castShadow : bool;
    receiveShadow : bool;
    material : option nat }.

(** The scene [useGLTF] returns: its nodes in the order [traverse]
    visits them, the materials, and [scene.position.y]. *)
Record Scene : Type :=
  { objects : list Object3D;
    materials : list Material;
    position_y : float }.

(** The callback of the first effect's [traverse]. *)
Definition prepare (obj : Object3D) : Object3D :=
  if isMesh obj then
    {| isMesh := isMesh obj;
       name := if String.eqb (name obj) "" then "BuildingMesh" else name obj;
       castShadow := true;
       receiveShadow := true;
       material := material obj |}
  else obj.

(** The first effect, on the [loaded] state and the scene: the new
    [loaded], the scene, and whether [onReady] was called. *)
Definition load_effect (loaded : bool) (scene : Scene)
  : bool * Scene * bool :=
  if negb loaded then
    (true,
     {| objects := map prepare (objects scene);
        materials := materials scene;
        position_y := PrimFloat.add (position_y scene) 1.5%float |},
     true)
  else (loaded, scene, false).

Fixpoint rerun (n : nat) (loaded : bool) (scene : Scene) : bool * Scene :=
  match n with
  | O => (loaded, scene)
  | S m =>
      let '(loaded', scene', _) := load_effect loaded scene in
      rerun m loaded' scene'
  end.

(** The body of the second effect's callback for a mesh whose material is
    [mat]. *)
Definition highlight_material (highlight : bool) (mat : Material)
  : completion Material :=
  if highlight then
    let mat1 :=
      match baseEmissive mat with
      | Some _ => mat
      | None =>
          {| emissive := emissive mat;
             baseEmissive := Some (match emissive mat with
                                   | Some e => e
                                   | None => black
                                   end) |}
      end in
    let mat2 :=
      match emissive mat1 with
      | Some _ => mat1
      | None => {| emissive := Some black;
                   baseEmissive := baseEmissive mat1 |}
      end in
    match emissive mat2 with
    | Some _ => Normal {| emissive := Some glow;
                          baseEmissive := baseEmissive mat2 |}
    | None => Throw (mkError "Cannot read properties of undefined (reading 'setRGB')")
    end
  else
    match baseEmissive mat with
    | Some base =>
        match emissive mat with
        | Some _ => Normal {| emissive := Some base;
                              baseEmissive := baseEmissive mat |}
        | None => Throw (mkError "Cannot read properties of undefined (reading 'copy')")
        end
    | None => Normal mat
    end.

Fixpoint replace_nth {A : Type} (i : nat) (x : A) (l : list A) : list A :=
  match l, i with
  | [], _ => []
  | _ :: rest, O => x :: rest
  | y :: rest, S j => y :: replace_nth j x rest
  end.

(** The second effect: [scene.traverse] over the nodes, mutating the
    materials in place. *)
Fixpoint highlight_objects (highlight : bool) (objs : list Object3D)
  (store : list Material) : completion (list Material) :=
  match objs with
  | [] => Normal store
  | obj :: rest =>
      if isMesh obj then
        match material obj with
        | None => highlight_objects highlight rest store
        | Some i =>
            match nth_error store i with
            | None => highlight_objects highlight rest store
            | Some mat =>
                mat' <- highlight_material highlight mat ;;
                highlight_objects highlight rest (replace_nth i mat' store)
            end
        end
      else highlight_objects highlight rest store
  end.

Definition highlight_effect (highlight : bool) (scene : Scene)
  : completion Scene :=
  store <- highlight_objects highlight (objects scene) (materials scene) ;;
  Normal {| objects := objects scene;
            materials := store;
            position_y := position_y scene |}.

(** The effect run for each value [highlight] takes in turn. *)
Fixpoint hover_sequence (values : list bool) (store : list Material)
  (objs : list Object3D) : completion (list Material) :=
  match values with
  | [] => Normal store
  | h :: rest =>
      store' <- highlight_objects h objs store ;;
      hover_sequence rest store' objs
  end.

(** Whether some mesh of the list uses material [i]. *)
Definition uses (i : nat) (obj : Object3D) : bool :=
  isMesh obj
  && match material obj with
     | Some j => Nat.eqb i j
     | None => false
     end.

(** The colour a material goes back to when the highlight ends. *)
Definition resting (mat : Material) : Color :=
  match emissive mat with
  | Some e => e
  | None => black
  end.

(** A model as loaded: no material carries a saved colour yet. *)
Definition pristine (store : list Material) : bool :=
  forallb (fun mat => match baseEmissive mat with
                      | None => true
                      | Some _ => false
                      end) store.

(** A material the second effect can process without throwing: a saved
    colour implies an emissive colour to copy it into. *)
Definition sound (mat : Material) : Prop :=
  baseEmissive mat <> None -> emissive mat <> None.

Definition settle (highlight : bool) (mat : Material) : Material :=
  match highlight_material highlight mat with
  | Normal mat' => mat'
  | Throw _ => mat
  end.

(** Where the hovering stands: [None] before the first highlight, then
    whether the highlight is on. *)
Definition after_hover (st : option bool) (highlight : bool) : option bool :=
  if highlight then Some true
  else match st with
       | None => None
       | Some _ => Some false
       end.

(** What a material that started as [mat] is expected to hold then. *)
Definition shown (st : option bool) (mat : Material) : Material :=
  match st with
  | None => mat
  | Some lit =>
      {| emissive := Some (if lit then glow else resting mat);
         baseEmissive := Some (resting mat) |}
  end.

End Gltf.

(** ** Concrete gestures and models *)

Module Samples.
Import Building Gltf.

Definition press : PointerEvent :=
  {| clientX := 100%float; clientY := 200%float |}.

(** Two pixels to the right of [press]: exactly on the threshold. *)
Definition nudge : PointerEvent :=
  {| clientX := 102%float; clientY := 200%float |}.

(** Three pixels to the right and four down: five pixels away. *)
Definition sweep : PointerEvent :=
  {| clientX := 103%float; clientY := 204%float |}.

Definition amber : Color :=
  {| red := 1%float; green := 0.5%float; blue := 0%float |}.

(** Two meshes sharing a material with an emissive colour, a group, and
    a mesh whose material has no emissive. *)
Definition model : Scene :=
  {| objects :=
       [ {| isMesh := false; name := "Root"; castShadow := false;
            receiveShadow := false; material := None |};
         {| isMesh := true; name := ""; castShadow := false;
            receiveShadow := false; material := Some 0 |};
         {| isMesh := true; name := "Door"; castShadow := false;
            receiveShadow := false; material := Some 0 |};
         {| isMesh := true; name := ""; castShadow := false;
            receiveShadow := false; material := Some 1 |} ];
     materials :=
       [ {| emissive := Some amber; baseEmissive := None |};
         {| emissive := None; baseEmissive := None |};
         {| emissive := Some amber; baseEmissive := None |} ];
     position_y := 0%float |}.

End Samples.

(** * Properties *)

(** ** The adapter *)

Module AdapterFacts.
Import Adapter.

Lemma populated_fields (r : WeatherRecord) :
  populated r = true <->
  defined (temperature r) = true /\ defined (windspeed r) = true /\
  defined (winddirection r) = true /\ defined (weathercode r) = true /\
  defined (time r) = true.
Proof.
  unfold populated. rewrite !andb_true_iff. tauto.
Qed.

Lemma coalesce_defined (v d : value) :
  defined d = true -> defined (v ?? d) = true.
Proof. destruct v; simpl; auto. Qed.

Lemma coalesce_nullish (v d : value) :
  is_nullish v = true -> v ?? d = d.
Proof. unfold coalesce; intros ->; reflexivity. Qed.

Lemma coalesce_present (v d : value) :
  is_nullish v = false -> v ?? d = v.
Proof. unfold coalesce; intros ->; reflexivity. Qed.

(** A property read from a truthy value does not throw. *)
Lemma get_truthy (cw : value) (key : string) :
  truthy cw = true -> exists v, get cw key = Normal v.
Proof.
  destruct cw; simpl; intros H; try discriminate; eauto.
Qed.

Lemma fallback_populated (now : Z) : populated (fallback now) = true.
Proof. reflexivity. Qed.

Lemma try_populated (fetched : exchange) (now : Z) (r : WeatherRecord) :
  fetchWeather_try fetched now = Normal r -> populated r = true.
Proof.
  unfold fetchWeather_try.
  destruct fetched as [res|e]; simpl; [|discriminate].
  destruct (ok res); simpl; [|discriminate].
  destruct (json res) as [data|e]; simpl; [|discriminate].
  destruct (get data "current_weather") as [cw|e]; simpl; [|discriminate].
  destruct (truthy cw); simpl; [|discriminate].
  destruct (get cw "temperature"); simpl; [|discriminate].
  destruct (get cw "windspeed"); simpl; [|discriminate].
  destruct (get cw "winddirection"); simpl; [|discriminate].
  destruct (get cw "weathercode"); simpl; [|discriminate].
  destruct (get cw "time"); simpl; [|discriminate].
  intros [= <-]. apply populated_fields; simpl.
  repeat split; apply coalesce_defined; reflexivity.
Qed.

(** C2. For every coordinate and whatever the network does, the promise
    of [fetchWeather] is fulfilled, never rejected, and the record it is
    fulfilled with has every field: none of temperature, windspeed,
    winddirection, weathercode and time is undefined, and units holds
    both unit strings. *)
Theorem fetchWeather_always_fulfilled
  (coord : Coordinate) (fetched : exchange) (now : Z) :
  exists r : WeatherRecord,
    fetchWeather coord fetched now = Fulfilled r /\
    populated r = true /\
    units r = {| units_temperature := "°C"; units_windspeed := "km/h" |}.
Proof.
  unfold fetchWeather.
  destruct (fetchWeather_try fetched now) as [r|e] eqn:E.
  - exists r. split; [reflexivity|]. split.
    + eapply try_populated; eassumption.
    + revert E. unfold fetchWeather_try.
      destruct fetched as [res|e]; simpl; [|discriminate].
      destruct (ok res); simpl; [|discriminate].
      destruct (json res) as [data|e]; simpl; [|discriminate].
      destruct (get data "current_weather") as [cw|e]; simpl;
        [|discriminate].
      destruct (truthy cw); simpl; [|discriminate].
      destruct (get cw "temperature"); simpl; [|discriminate].
      destruct (get cw "windspeed"); simpl; [|discriminate].
      destruct (get cw "winddirection"); simpl; [|discriminate].
      destruct (get cw "weathercode"); simpl; [|discriminate].
      destruct (get cw "time"); simpl; [|discriminate].
      intros [= <-]. reflexivity.
  - exists (fallback now). repeat split.
Qed.

Lemma try_throws_when_degraded (fetched : exchange) (now : Z) :
  degraded fetched = true ->
  exists e, fetchWeather_try fetched now = Throw e.
Proof.
  unfold degraded, fetchWeather_try, no_current_section.
  destruct fetched as [res|e]; simpl; [|eauto].
  destruct (ok res); simpl; [|eauto].
  destruct (json res) as [data|e]; simpl; [|eauto].
  destruct (get data "current_weather") as [cw|e]; simpl; [|eauto].
  destruct (truthy cw); simpl; [discriminate|eauto].
Qed.

(** C3. When the transport fails, the status is not a success, the body
    cannot be read or it has no current-conditions section, the adapter
    is fulfilled with exactly the fallback record: the sentinel in
    temperature, windspeed and winddirection, weathercode 0, the metric
    units, and as timestamp the current time [now] that this invocation
    of the adapter reads from the clock ([new Date()]). *)
Theorem fallback_record_on_failure
  (coord : Coordinate) (fetched : exchange) (now : Z) :
  degraded fetched = true ->
  fetchWeather coord fetched now =
  Fulfilled {| temperature := VStr "--";
               windspeed := VStr "--";
               winddirection := VStr "--";
               weathercode := VNum 0%float;
               time := VIsoString now;
               units := {| units_temperature := "°C";
                           units_windspeed := "km/h" |} |}.
Proof.
  intros H. unfold fetchWeather.
  destruct (try_throws_when_degraded fetched now H) as [e ->].
  reflexivity.
Qed.

Lemma fallback_record_on_failure_witness :
  degraded Scenario.offline = true /\
  degraded (Normal {| ok := false; json := Normal VNull |}) = true /\
  degraded (Normal {| ok := true;
                      json := Normal (VObj [("latitude",
                                             VNum 12.875%float)]) |}) = true
  /\
  fetchWeather Scenario.campus Scenario.offline 4000 =
  Fulfilled (fallback 4000) /\
  fetchWeather Scenario.campus
    (Normal {| ok := true;
               json := Normal (VObj [("latitude", VNum 12.875%float)]) |})
    4000 = Fulfilled (fallback 4000).
Proof.
  split; [reflexivity|]. split; [reflexivity|]. split; [reflexivity|].
  split.
  - apply (fallback_record_on_failure Scenario.campus Scenario.offline 4000).
    reflexivity.
  - apply (fallback_record_on_failure Scenario.campus
             (Normal {| ok := true;
                        json := Normal (VObj [("latitude",
                                               VNum 12.875%float)]) |})
             4000).
    reflexivity.
Defined.

(** A falsy value that is neither [undefined] nor [null] has none of
    the properties the adapter reads. *)
Lemma get_falsy (cw : value) (key : string) :
  is_nullish cw = false -> truthy cw = false ->
  get cw key = Normal VUndefined.
Proof.
  destruct cw; simpl; intros Hn Ht; try discriminate; reflexivity.
Qed.

(** C4. On a successful response whose body has a current-conditions
    section [cw] (a [current_weather] member that is not null), the
    adapter is fulfilled with a record that takes each of the five
    fields from the property of the same name of [cw]: where that
    property is null or absent the field holds its own fallback (the
    sentinel, 0 for the code, the current time for the timestamp), where
    it is present the field holds the property unchanged, whatever the
    other properties are. *)
Theorem field_level_fallback
  (coord : Coordinate) (res : Response) (data cw : value) (now : Z) :
  ok res = true ->
  json res = Normal data ->
  get data "current_weather" = Normal cw ->
  is_nullish cw = false ->
  exists r : WeatherRecord,
    fetchWeather coord (Normal res) now = Fulfilled r /\
    units r = {| units_temperature := "°C"; units_windspeed := "km/h" |} /\
    forall f : field,
    exists v : value,
      get cw (service_name f) = Normal v /\
      (is_nullish v = true -> read f r = field_fallback f now) /\
      (is_nullish v = false -> read f r = v).
Proof.
  intros Hok Hjson Hcw Hn.
  unfold fetchWeather, fetchWeather_try, bind.
  rewrite Hok, Hjson, Hcw. cbn [negb].
  destruct (truthy cw) eqn:Ht; cbn [negb].
  - destruct (get_truthy cw "temperature" Ht) as [t Et].
    destruct (get_truthy cw "windspeed" Ht) as [ws Ews].
    destruct (get_truthy cw "winddirection" Ht) as [wd Ewd].
    destruct (get_truthy cw "weathercode" Ht) as [wc Ewc].
    destruct (get_truthy cw "time" Ht) as [tm Etm].
    rewrite Et, Ews, Ewd, Ewc, Etm.
    eexists. split; [reflexivity|]. split; [reflexivity|].
    intros f; destruct f; cbn [service_name read field_fallback
      temperature windspeed winddirection weathercode time];
      eexists; (split; [eassumption|]); split; intros Hv;
      solve [apply coalesce_nullish; exact Hv
            |apply coalesce_present; exact Hv].
  - exists (fallback now). split; [reflexivity|]. split; [reflexivity|].
    intros f. exists VUndefined. split; [now apply get_falsy|].
    split; [intros _; destruct f; reflexivity|discriminate].
Qed.

Lemma field_level_fallback_witness :
  exists r : WeatherRecord,
    fetchWeather Scenario.campus
      (Normal {| ok := true;
                 json := Normal (VObj [("current_weather",
                                        Scenario.partial_section)]) |})
      5000 = Fulfilled r /\
    read Temperature r = VNum 29.5%float /\
    read Winddirection r = VStr "--" /\
    read Weathercode r = VNum 0%float /\
    read Time r = VStr "2025-03-01T09:15".
Proof.
  destruct (field_level_fallback Scenario.campus
              {| ok := true;
                 json := Normal (VObj [("current_weather",
                                        Scenario.partial_section)]) |}
              (VObj [("current_weather", Scenario.partial_section)])
              Scenario.partial_section 5000
              eq_refl eq_refl eq_refl eq_refl) as [r [E _]].
  exists r. split; [exact E|].
  vm_compute in E. injection E as <-. repeat split.
Defined.

End AdapterFacts.

(** ** The condition code table *)

Module ConditionTableFacts.
Import ConditionTable.

Lemma to_int_proper (n : Z) :
  Z.to_int n <> Decimal.Pos Decimal.Nil /\
  Z.to_int n <> Decimal.Neg Decimal.Nil.
Proof.
  destruct n as [|p|p]; simpl; split; try discriminate;
    intros [= H]; exact (DecimalPos.Unsigned.to_uint_nonnil p H).
Qed.

(** Distinct integers print as distinct property names. *)
Lemma number_to_string_inj (n m : Z) :
  number_to_string n = number_to_string m -> n = m.
Proof.
  intros H. apply (f_equal NilZero.int_of_string) in H.
  unfold number_to_string in H.
  destruct (to_int_proper n) as [Hn1 Hn2].
  destruct (to_int_proper m) as [Hm1 Hm2].
  rewrite !NilZero.isi in H by assumption.
  injection H as H. apply (f_equal Z.of_int) in H.
  now rewrite !DecimalZ.of_to in H.
Qed.

Lemma key_eqb (k n : Z) :
  String.eqb (number_to_string k) (number_to_string n) = Z.eqb k n.
Proof.
  destruct (Z.eqb_spec k n) as [->|Hne].
  - apply String.eqb_refl.
  - apply String.eqb_neq. intros H. apply Hne.
    now apply number_to_string_inj.
Qed.

(** Looking a code up by its property name is looking it up by its
    number. *)
Lemma property_keyed (table : list (Z * string)) (n : Z) :
  property (map keyed table) (number_to_string n) = documented table n.
Proof.
  induction table as [|[k label] rest IH]; simpl; [reflexivity|].
  rewrite key_eqb. destruct (Z.eqb k n); [reflexivity|exact IH].
Qed.

Lemma WMO_keyed : WMO = map keyed documented_codes.
Proof. reflexivity. Qed.

Lemma documented_in (table : list (Z * string)) (n : Z) (label : string) :
  documented table n = Some label -> In label (map snd table).
Proof.
  induction table as [|[k l] rest IH]; simpl; [discriminate|].
  destruct (Z.eqb k n); [intros [= ->]; now left|right; auto].
Qed.

Lemma documented_none (table : list (Z * string)) (n : Z) :
  ~ In n (map fst table) -> documented table n = None.
Proof.
  induction table as [|[k l] rest IH]; simpl; [reflexivity|].
  intros H. destruct (Z.eqb_spec k n) as [->|_].
  - exfalso; apply H; now left.
  - apply IH. intros Hin; apply H; now right.
Qed.

Lemma labels_not_empty (label : string) :
  In label (map snd documented_codes) -> String.eqb label "" = false.
Proof.
  simpl. intros H.
  repeat (destruct H as [<-|H]; [reflexivity|]). contradiction.
Qed.

Lemma labelFor_refines (code : Z) : labelFor code = spec_labelFor code.
Proof.
  unfold labelFor, label_of_key, spec_labelFor.
  rewrite WMO_keyed, property_keyed.
  destruct (documented documented_codes code) as [label|] eqn:E;
    [|reflexivity].
  now rewrite (labels_not_empty label (documented_in _ _ _ E)).
Qed.

Lemma property_in (obj : list (string * string)) (key label : string) :
  property obj key = Some label -> In label (map snd obj).
Proof.
  induction obj as [|[k l] rest IH]; simpl; [discriminate|].
  destruct (String.eqb k key); [intros [= ->]; now left|right; auto].
Qed.

Lemma WMO_labels_not_empty (label : string) :
  In label (map snd WMO) -> String.eqb label "" = false.
Proof.
  simpl. intros H.
  repeat (destruct H as [<-|H]; [reflexivity|]). contradiction.
Qed.

(** C5. The label lookup is total. Whatever number the code is, with
    [key] its printed form, the lookup yields a non-empty string: the
    label of the table where [key] names an entry, and "Code " followed
    by the printed code where it does not. At every safe integer code,
    negative and unmapped ones included, this reads: a code of the table
    yields that code's label (61 gives "Slight rain", 0 gives "Clear
    sky"), and any other code yields "Code " followed by its decimal
    numeral. *)
Theorem labelFor_total (code : Z) (key : string) :
  (printed_number key = true ->
   label_of_key key <> "" /\
   (forall label : string,
       property WMO key = Some label -> label_of_key key = label) /\
   (property WMO key = None -> label_of_key key = "Code " ++ key)) /\
  (safe_integer code = true ->
   labelFor code <> "" /\
   (forall label : string,
       In (code, label) documented_codes -> labelFor code = label) /\
   (~ In code (map fst documented_codes) ->
    labelFor code = "Code " ++ number_to_string code)) /\
  labelFor 61 = "Slight rain" /\
  labelFor 0 = "Clear sky".
Proof.
  split; [|split; [|split; reflexivity]].
  - intros _. unfold label_of_key.
    destruct (property WMO key) as [l|] eqn:E.
    + pose proof (WMO_labels_not_empty l (property_in _ _ _ E)) as Hl.
      rewrite Hl. split; [now apply String.eqb_neq|].
      split; [intros label [= <-]; reflexivity|discriminate].
    + split; [discriminate|]. split; [discriminate|reflexivity].
  - intros _. rewrite labelFor_refines. unfold spec_labelFor.
    split; [|split].
    + destruct (documented documented_codes code) as [label|] eqn:E.
      * apply String.eqb_neq, labels_not_empty.
        eapply documented_in; eassumption.
      * discriminate.
    + intros label H. simpl in H.
      repeat (destruct H as [[= <- <-]|H]; [reflexivity|]). contradiction.
    + intros H. now rewrite documented_none.
Qed.

Lemma labelFor_total_witness :
  labelFor 61 = "Slight rain" /\
  labelFor (-7) = "Code -7" /\
  labelFor 77 = "Code 77" /\
  label_of_key "1e+21" = "Code 1e+21".
Proof.
  split; [|split; [|split]].
  - apply (proj1 (proj2 (proj1 (proj2 (labelFor_total 61 "61")) eq_refl))).
    simpl. do 9 right. left. reflexivity.
  - apply (proj2 (proj2 (proj1 (proj2 (labelFor_total (-7) "-7")) eq_refl))).
    simpl. intuition discriminate.
  - apply (proj2 (proj2 (proj1 (proj2 (labelFor_total 77 "77")) eq_refl))).
    simpl. intuition discriminate.
  - apply (proj2 (proj2 (proj1 (labelFor_total 0 "1e+21") eq_refl))).
    reflexivity.
Defined.

End ConditionTableFacts.

(** ** The panel state machine *)

Module PanelFacts.
Import Adapter Panel.

Lemma fetchWeather_fulfilled (coord : Coordinate) (fetched : exchange)
  (now : Z) :
  exists data, fetchWeather coord fetched now = Fulfilled data.
Proof.
  unfold fetchWeather. destruct (fetchWeather_try fetched now); eauto.
Qed.

Lemma run_cons (w : World) (e : event) (t : list event) :
  run w (e :: t) = run (step w e) t.
Proof. reflexivity. Qed.

(** An invariant of [step] holds along every trace. *)
Lemma run_invariant (P : World -> Prop) :
  (forall w e, P w -> P (step w e)) ->
  forall trace w, P w -> P (run w trace).
Proof.
  intros Hstep trace. induction trace as [|e rest IH]; intros w Hw.
  - exact Hw.
  - rewrite run_cons. apply IH, Hstep, Hw.
Qed.

Lemma resume_fulfilled_error (k : suspended) (data : WeatherRecord)
  (s : PanelState) :
  error (resume k (Fulfilled data) s) = error s.
Proof. destruct k; reflexivity. Qed.

Lemma resume_loading (k : suspended) (r : settled) (s : PanelState) :
  loading (resume k r s) = false.
Proof. destruct k, r; reflexivity. Qed.

Lemma resume_modalOpen (k : suspended) (r : settled) (s : PanelState) :
  modalOpen (resume k r s) = modalOpen s.
Proof. destruct k, r; reflexivity. Qed.

Lemma step_keeps_error_empty (w : World) (e : event) :
  error (panel w) = "" -> error (panel (step w e)) = "".
Proof.
  intros H. destruct e as [coord|key| | |i fetched now]; simpl.
  - unfold onBuildingClick. destruct (cached (panel w) coord); simpl;
      [exact H|reflexivity].
  - unfold onKey. destruct (String.eqb key "Escape"); exact H.
  - exact H.
  - exact H.
  - destruct (nth_error (inflight w) i) as [k|]; [|exact H]. simpl.
    destruct (fetchWeather_fulfilled (requested k) fetched now) as [d ->].
    now rewrite resume_fulfilled_error.
Qed.

(** While the spinner is on, a fetch is in flight. *)
Lemma step_keeps_loading_backed (w : World) (e : event) :
  (inflight w = [] -> loading (panel w) = false) ->
  inflight (step w e) = [] -> loading (panel (step w e)) = false.
Proof.
  intros H. destruct e as [coord|key| | |i fetched now]; simpl.
  - unfold onBuildingClick. destruct (cached (panel w) coord); simpl.
    + rewrite app_nil_r. exact H.
    + intros E. apply app_eq_nil in E. destruct E; discriminate.
  - unfold onKey. destruct (String.eqb key "Escape"); exact H.
  - exact H.
  - exact H.
  - destruct (nth_error (inflight w) i) as [k|]; [|exact H]. simpl.
    intros _. apply resume_loading.
Qed.

Lemma render_errored (s : PanelState) :
  render s = OpenErrored -> error s <> "".
Proof.
  unfold render. destruct (modalOpen s), (loading s); simpl;
    try discriminate.
  destruct (String.eqb_spec (error s) ""); simpl;
    [destruct (weather s) as [w|]; [destruct (displayable w)|];
     discriminate|auto].
Qed.

(** C8. The adapter is always fulfilled, so the click handler resumes
    through its try block and never through its catch block; the error
    message is the empty string after every event of every run of the
    component, in particular after every click-initiated fetch has
    settled, and the panel never shows the errored view. *)
Theorem errored_unreachable
  (coords : Coordinate) (trace : list event)
  (coord : Coordinate) (fetched : exchange) (now : Z) (s : PanelState) :
  (exists data : WeatherRecord,
      fetchWeather coord fetched now = Fulfilled data /\
      onBuildingClick_resume (fetchWeather coord fetched now) s =
      setLoading false (setWeather (Some data) s) /\
      error (onBuildingClick_resume (fetchWeather coord fetched now) s) =
      error s) /\
  error (panel (run (mounted coords) trace)) = "" /\
  render (panel (run (mounted coords) trace)) <> OpenErrored.
Proof.
  assert (Herr : error (panel (run (mounted coords) trace)) = "").
  { apply (run_invariant (fun w => error (panel w) = ""));
      [exact step_keeps_error_empty|reflexivity]. }
  split; [|split; [exact Herr|]].
  - destruct (fetchWeather_fulfilled coord fetched now) as [d E].
    exists d. rewrite E. repeat split.
  - intros H. apply render_errored in H. contradiction.
Qed.

Lemma step_stays_closed (w : World) (e : event) :
  is_click e = false ->
  modalOpen (panel w) = false -> modalOpen (panel (step w e)) = false.
Proof.
  intros He H. destruct e as [coord|key| | |i fetched now]; simpl.
  - discriminate.
  - unfold onKey. destruct (String.eqb key "Escape"); [reflexivity|exact H].
  - reflexivity.
  - reflexivity.
  - destruct (nth_error (inflight w) i) as [k|]; [|exact H]. simpl.
    now rewrite resume_modalOpen.
Qed.

Lemma run_stays_closed (trace : list event) (w : World) :
  forallb (fun e => negb (is_click e)) trace = true ->
  modalOpen (panel w) = false -> modalOpen (panel (run w trace)) = false.
Proof.
  revert w. induction trace as [|e rest IH]; intros w Hc Hw; [exact Hw|].
  simpl in Hc. apply andb_true_iff in Hc. destruct Hc as [He Hrest].
  rewrite run_cons. apply IH; [exact Hrest|].
  apply step_stays_closed; [|exact Hw].
  now apply negb_true_iff.
Qed.

Lemma step_settles (w : World) (i : nat) (k : suspended)
  (fetched : exchange) (now : Z) :
  nth_error (inflight w) i = Some k ->
  step w (Settles i fetched now) =
  {| panel := resume k (fetchWeather (requested k) fetched now) (panel w);
     inflight := remove_nth i (inflight w) |}.
Proof. simpl. intros ->. reflexivity. Qed.

(** C9. The panel starts closed. The mount effect issues one fetch, for
    the default coordinate, without opening the panel; when that fetch
    settles its record is stored and the selected coordinate is set to
    the default, the panel still closed. As long as no click occurs, the
    panel stays closed. Whatever has happened in between, so also after
    a click has selected another coordinate, the settling of the mount
    fetch stores its record, sets the selected coordinate to the default
    and leaves the open flag as it is. *)
Theorem mount_prefetch_keeps_closed
  (coords : Coordinate) (fetched : exchange) (now : Z)
  (trace : list event) (w : World) (i : nat) :
  modalOpen (initial coords) = false /\
  modalOpen (panel (mounted coords)) = false /\
  map requested (inflight (mounted coords)) = [coords] /\
  (exists data : WeatherRecord,
      fetchWeather coords fetched now = Fulfilled data /\
      let w := run (mounted coords) [Settles 0 fetched now] in
      weather (panel w) = Some data /\
      clickedCoords (panel w) = coords /\
      modalOpen (panel w) = false /\
      inflight w = []) /\
  (forallb (fun e => negb (is_click e)) trace = true ->
   modalOpen (panel (run (mounted coords) trace)) = false) /\
  (nth_error (inflight w) i = Some (InMount coords) ->
   exists data : WeatherRecord,
     fetchWeather coords fetched now = Fulfilled data /\
     weather (panel (step w (Settles i fetched now))) = Some data /\
     clickedCoords (panel (step w (Settles i fetched now))) = coords /\
     modalOpen (panel (step w (Settles i fetched now)))
     = modalOpen (panel w)).
Proof.
  split; [reflexivity|]. split; [reflexivity|]. split; [reflexivity|].
  split; [|split].
  - destruct (fetchWeather_fulfilled coords fetched now) as [d E].
    exists d. split; [exact E|]. simpl. rewrite E. repeat split.
  - intros H. now apply run_stays_closed.
  - intros Hi.
    destruct (fetchWeather_fulfilled coords fetched now) as [d E].
    exists d. split; [exact E|].
    rewrite (step_settles w i (InMount coords) fetched now Hi).
    cbn [panel resume requested]. rewrite E. repeat split.
Qed.

Lemma mount_prefetch_keeps_closed_witness :
  modalOpen
    (panel (run (mounted Scenario.block_a)
              [Settles 0 Scenario.offline 250; KeyDown "Escape"])) = false /\
  clickedCoords
    (panel (run (mounted Scenario.block_a) [Click Scenario.campus]))
  = Scenario.campus /\
  exists data : WeatherRecord,
    fetchWeather Scenario.block_a Scenario.campus_answer 250
    = Fulfilled data /\
    weather (panel (step (run (mounted Scenario.block_a)
                            [Click Scenario.campus])
                      (Settles 0 Scenario.campus_answer 250))) = Some data /\
    clickedCoords
      (panel (step (run (mounted Scenario.block_a) [Click Scenario.campus])
                (Settles 0 Scenario.campus_answer 250)))
    = Scenario.block_a /\
    modalOpen
      (panel (step (run (mounted Scenario.block_a) [Click Scenario.campus])
                (Settles 0 Scenario.campus_answer 250)))
    = modalOpen (panel (run (mounted Scenario.block_a)
                          [Click Scenario.campus])).
Proof.
  split; [|split; [reflexivity|]].
  - apply (mount_prefetch_keeps_closed Scenario.block_a Scenario.offline 250
             [Settles 0 Scenario.offline 250; KeyDown "Escape"]
             (mounted Scenario.block_a) 0).
    reflexivity.
  - apply (mount_prefetch_keeps_closed Scenario.block_a
             Scenario.campus_answer 250 []
             (run (mounted Scenario.block_a) [Click Scenario.campus]) 0).
    reflexivity.
Defined.

(** C10. A click that issues a fetch, and the mount effect, set the
    loading flag before they await; when the awaited fetch settles, be
    it fulfilled or rejected, the resumed function clears the flag, so
    the flag is false right after any fetch in flight settles, and in
    every run of the component it is false whenever no fetch is in
    flight. *)
Theorem loading_flag_reset
  (s : PanelState) (coord coords : Coordinate) (r : settled)
  (w : World) (i : nat) (fetched : exchange) (now : Z)
  (trace : list event) :
  (snd (onBuildingClick s coord) = Some coord ->
   loading (fst (onBuildingClick s coord)) = true) /\
  snd (fetchCurrentWeather s coords) = Some coords /\
  loading (fst (fetchCurrentWeather s coords)) = true /\
  loading (onBuildingClick_resume r s) = false /\
  loading (fetchCurrentWeather_resume coords r s) = false /\
  (i < List.length (inflight w) ->
   loading (panel (step w (Settles i fetched now))) = false) /\
  (inflight (run (mounted coords) trace) = [] ->
   loading (panel (run (mounted coords) trace)) = false).
Proof.
  split; [|split; [reflexivity|split; [reflexivity|split; [|split;
    [|split]]]]].
  - unfold onBuildingClick. destruct (cached s coord); simpl;
      [discriminate|reflexivity].
  - destruct r; reflexivity.
  - destruct r; reflexivity.
  - intros Hi. apply nth_error_Some in Hi. simpl.
    destruct (nth_error (inflight w) i) as [k|]; [|congruence].
    apply resume_loading.
  - apply (run_invariant
             (fun w => inflight w = [] -> loading (panel w) = false));
      [exact step_keeps_loading_backed|discriminate].
Qed.

Lemma loading_flag_reset_witness :
  loading (fst (onBuildingClick (initial Scenario.block_a)
                  Scenario.campus)) = true /\
  loading (panel (step (mounted Scenario.block_a)
                    (Settles 0 Scenario.offline 250))) = false.
Proof.
  destruct (loading_flag_reset (initial Scenario.block_a) Scenario.campus
              Scenario.block_a (Rejected (mkError "")) 
              (mounted Scenario.block_a) 0 Scenario.offline 250 [])
    as [Hclick [_ [_ [_ [_ [Hsettle _]]]]]].
  split.
  - apply Hclick. reflexivity.
  - apply Hsettle. simpl. lia.
Defined.

Lemma cached_iff (s : PanelState) (coord : Coordinate) :
  cached s coord = true <-> cache_rule s coord.
Proof.
  unfold cached, cache_rule. destruct (weather s) as [w|].
  - rewrite !andb_true_iff. split.
    + intros [[H1 H2] H3]. exists w. auto.
    + intros [w' [[= <-] [H1 [H2 H3]]]]. auto.
  - split; [discriminate|]. intros [w' [H _]]. discriminate.
Qed.

Lemma closes_panel (w : World) (e : event) :
  closes e = true ->
  panel (step w e) = setModalOpen false (panel w) /\
  inflight (step w e) = inflight w.
Proof.
  destruct e as [coord|key| | |i fetched now]; simpl; try discriminate.
  - unfold onKey. intros ->. split; reflexivity.
  - split; reflexivity.
  - split; reflexivity.
Qed.

(** C7. The escape key, the backdrop and the Close button set isOpen to
    false and leave the record, the selected coordinate, the loading
    flag, the error message and the fetches in flight as they are; the
    cache rule therefore holds after the close exactly when it held
    before, and where it holds a following click on the same coordinate
    reopens the panel on the retained record without issuing a fetch. *)
Theorem close_retains_record (w : World) (e : event) (coord : Coordinate) :
  closes e = true ->
  modalOpen (panel (step w e)) = false /\
  weather (panel (step w e)) = weather (panel w) /\
  clickedCoords (panel (step w e)) = clickedCoords (panel w) /\
  loading (panel (step w e)) = loading (panel w) /\
  error (panel (step w e)) = error (panel w) /\
  inflight (step w e) = inflight w /\
  (cache_rule (panel (step w e)) coord <-> cache_rule (panel w) coord) /\
  (cache_rule (panel w) coord ->
   inflight (step (step w e) (Click coord)) = inflight w /\
   weather (panel (step (step w e) (Click coord))) = weather (panel w) /\
   modalOpen (panel (step (step w e) (Click coord))) = true).
Proof.
  intros He. destruct (closes_panel w e He) as [Hp Hi].
  rewrite Hp, Hi. do 6 (split; [reflexivity|]).
  assert (Hc : cached (setModalOpen false (panel w)) coord
               = cached (panel w) coord) by reflexivity.
  split.
  - rewrite <- !cached_iff, Hc. tauto.
  - intros Hrule. apply cached_iff in Hrule.
    simpl. rewrite Hp, Hi. unfold onBuildingClick. rewrite Hc, Hrule.
    simpl. rewrite app_nil_r. repeat split.
Qed.

Lemma close_retains_record_witness :
  let w := run (mounted Scenario.campus) Scenario.warm_open in
  render (panel w) = OpenLoaded /\
  render (panel (step w (KeyDown "Escape"))) = Closed /\
  inflight (step (step w (KeyDown "Escape")) (Click Scenario.campus)) = [].
Proof.
  split; [reflexivity|]. split; [reflexivity|].
  apply (close_retains_record
           (run (mounted Scenario.campus) Scenario.warm_open)
           (KeyDown "Escape") Scenario.campus).
  - reflexivity.
  - eexists. repeat split; reflexivity.
Defined.

(** C6, as the code has it. Every click opens the panel on the clicked
    coordinate and leaves the record as it is. When the cache rule holds
    the click issues no fetch and leaves the loading flag and the error
    message untouched: the panel shows the loaded record when the loading
    flag is false and no error is stored (the record being one the grid
    displays), and shows the loading view when the loading flag is true.
    When the rule does not hold the click clears the error, enters the
    loading view and issues a fetch for the clicked coordinate. *)
Theorem click_dedup (s : PanelState) (coord : Coordinate) :
  modalOpen (fst (onBuildingClick s coord)) = true /\
  clickedCoords (fst (onBuildingClick s coord)) = coord /\
  weather (fst (onBuildingClick s coord)) = weather s /\
  (cache_rule s coord ->
   snd (onBuildingClick s coord) = None /\
   loading (fst (onBuildingClick s coord)) = loading s /\
   error (fst (onBuildingClick s coord)) = error s /\
   (loading s = false -> error s = "" ->
    (forall w, weather s = Some w -> displayable w = true) ->
    render (fst (onBuildingClick s coord)) = OpenLoaded) /\
   (loading s = true ->
    render (fst (onBuildingClick s coord)) = OpenLoading)) /\
  (~ cache_rule s coord ->
   snd (onBuildingClick s coord) = Some coord /\
   loading (fst (onBuildingClick s coord)) = true /\
   error (fst (onBuildingClick s coord)) = "" /\
   render (fst (onBuildingClick s coord)) = OpenLoading).
Proof.
  rewrite <- cached_iff. unfold onBuildingClick.
  destruct (cached s coord) eqn:Hc; simpl.
  - repeat (split; [reflexivity|]). split; [|intros H; now destruct H].
    intros _. repeat (split; [reflexivity|]).
    unfold render; simpl. split.
    + intros -> -> Hd. simpl. unfold cached in Hc.
      destruct (weather s) as [w|]; [|discriminate].
      now rewrite (Hd w eq_refl).
    + intros ->. reflexivity.
  - repeat (split; [reflexivity|]). split; [discriminate|].
    intros _. repeat split.
Qed.

Lemma click_dedup_witness :
  let s := panel (run (mounted Scenario.campus)
                    [Settles 0 Scenario.campus_answer 100]) in
  snd (onBuildingClick s Scenario.campus) = None /\
  render (fst (onBuildingClick s Scenario.campus)) = OpenLoaded /\
  snd (onBuildingClick s Scenario.harbour) = Some Scenario.harbour.
Proof.
  set (s := panel (run (mounted Scenario.campus)
                     [Settles 0 Scenario.campus_answer 100])).
  destruct (click_dedup s Scenario.campus) as [_ [_ [_ [Hhit _]]]].
  destruct (click_dedup s Scenario.harbour) as [_ [_ [_ [_ Hmiss]]]].
  assert (Hrule : cache_rule s Scenario.campus)
    by (eexists; repeat split; reflexivity).
  destruct (Hhit Hrule) as [Hreq [_ [_ [Hview _]]]].
  split; [exact Hreq|].
  split; [apply Hview; try reflexivity; intros w [= <-]; reflexivity|].
  apply Hmiss. intros [w [_ [_ [Hlat _]]]]. vm_compute in Hlat.
  discriminate Hlat.
Defined.

(** C6 as stated fails: after mount and pre-fetch, a click on the
    building starts a fetch and sets the loading flag; escape, then a
    second click on the building before that fetch settles meets the
    cache rule (same coordinate, a record with a timestamp is present),
    issues no fetch, and leaves the panel in the loading view, not the
    loaded one. *)
Lemma cache_hit_while_loading :
  let w := run (mounted Scenario.block_a) Scenario.reopen_while_loading in
  cache_rule (panel w) Scenario.campus /\
  inflight (step w (Click Scenario.campus)) = inflight w /\
  render (panel (step w (Click Scenario.campus))) = OpenLoading /\
  render (panel (step w (Click Scenario.campus))) <> OpenLoaded.
Proof.
  split; [eexists; repeat split; reflexivity|].
  split; [reflexivity|]. split; [reflexivity|].
  vm_compute. discriminate.
Qed.

Lemma nth_error_appended {A : Type} (l : list A) (x : A) (rest : list A) :
  nth_error (l ++ x :: rest) (List.length l) = Some x.
Proof. induction l as [|y l IH]; simpl; [reflexivity|exact IH]. Qed.

Lemma remove_nth_appended {A : Type} (l : list A) (x : A)
  (rest : list A) :
  remove_nth (List.length l) (l ++ x :: rest) = (l ++ rest)%list.
Proof. induction l as [|y l IH]; simpl; [reflexivity|now rewrite IH]. Qed.

Lemma click_miss (s : PanelState) (coord : Coordinate) :
  snd (onBuildingClick s coord) = Some coord ->
  onBuildingClick s coord =
  (setError "" (setLoading true
                  (setModalOpen true (setClickedCoords coord s))),
   Some coord).
Proof.
  unfold onBuildingClick. destruct (cached s coord); simpl;
    [discriminate|reflexivity].
Qed.

(** Every fulfilled fetch is stored when it settles, whatever the
    selected coordinate is by then. *)
Lemma resume_stores (k : suspended) (data : WeatherRecord)
  (s : PanelState) :
  weather (resume k (Fulfilled data) s) = Some data.
Proof. destruct k; reflexivity. Qed.

(** C1, as the code has it. When a click issues a fetch for A and,
    before it settles, a second click issues a fetch for B, and A's
    fetch settles after B's, the selected coordinate ends as B while the
    record ends as the one of A's fetch: B's record is stored when B's
    fetch settles and is then overwritten, because a settled fetch is
    applied whatever the selected coordinate is by then. *)
Theorem stale_resolution_overwrites
  (w : World) (a b : Coordinate) (xa xb : exchange) (ta tb : Z) :
  snd (onBuildingClick (panel w) a) = Some a ->
  snd (onBuildingClick (fst (onBuildingClick (panel w) a)) b) = Some b ->
  let n := List.length (inflight w) in
  let after_b := run w [Click a; Click b; Settles (S n) xb tb] in
  let final := run after_b [Settles n xa ta] in
  weather (panel after_b) = fulfilled_with (fetchWeather b xb tb) /\
  clickedCoords (panel after_b) = b /\
  weather (panel final) = fulfilled_with (fetchWeather a xa ta) /\
  clickedCoords (panel final) = b /\
  inflight final = inflight w.
Proof.
  intros Ha Hb n after_b final.
  assert (E1 : step w (Click a) =
               {| panel := fst (onBuildingClick (panel w) a);
                  inflight := inflight w ++ [InClick a] |}).
  { simpl. rewrite (click_miss _ _ Ha). reflexivity. }
  set (w1 := step w (Click a)) in *.
  assert (E2 : step w1 (Click b) =
               {| panel := fst (onBuildingClick (panel w1) b);
                  inflight := inflight w ++ [InClick a; InClick b] |}).
  { rewrite E1 in *. simpl panel in *. simpl.
    rewrite (click_miss _ _ Hb). simpl.
    now rewrite <- app_assoc. }
  set (w2 := step w1 (Click b)) in *.
  assert (P2 : clickedCoords (panel w2) = b).
  { rewrite E2, E1. simpl. rewrite (click_miss _ _ Hb). reflexivity. }
  assert (E3 : step w2 (Settles (S n) xb tb) =
               {| panel := resume (InClick b)
                             (fetchWeather b xb tb) (panel w2);
                  inflight := inflight w ++ [InClick a] |}).
  { rewrite (step_settles w2 (S n) (InClick b)).
    - f_equal. rewrite E2. simpl inflight.
      change [InClick a; InClick b] with ([InClick a] ++ [InClick b])%list.
      rewrite app_assoc.
      replace (S n) with (List.length (inflight w ++ [InClick a])%list)
        by (unfold n; now rewrite last_length).
      rewrite remove_nth_appended. now rewrite app_nil_r.
    - rewrite E2. simpl inflight.
      change [InClick a; InClick b] with ([InClick a] ++ [InClick b])%list.
      rewrite app_assoc.
      replace (S n) with (List.length (inflight w ++ [InClick a])%list)
        by (unfold n; now rewrite last_length).
      apply nth_error_appended. }
  assert (Eb : after_b = step w2 (Settles (S n) xb tb)) by reflexivity.
  assert (E4 : final =
               {| panel := resume (InClick a)
                             (fetchWeather a xa ta) (panel after_b);
                  inflight := inflight w |}).
  { unfold final.
    change (run after_b [Settles n xa ta])
      with (step after_b (Settles n xa ta)).
    rewrite (step_settles after_b n (InClick a)).
    - f_equal. rewrite Eb, E3. simpl inflight. unfold n.
      rewrite remove_nth_appended. now rewrite app_nil_r.
    - rewrite Eb, E3. simpl inflight. apply nth_error_appended. }
  destruct (fetchWeather_fulfilled a xa ta) as [da Ea].
  destruct (fetchWeather_fulfilled b xb tb) as [db Eb'].
  rewrite E4, Eb, E3, Ea, Eb'. simpl. auto.
Qed.

Lemma stale_resolution_overwrites_witness :
  let w := run (mounted Scenario.block_a)
             [Settles 0 (Scenario.served 30.1%float 1%float
                           "2025-03-01T09:00") 100] in
  let final := run w [Click Scenario.campus; Click Scenario.harbour;
                      Settles 1 Scenario.harbour_answer 300;
                      Settles 0 Scenario.campus_answer 400] in
  weather (panel final) =
  fulfilled_with (fetchWeather Scenario.campus Scenario.campus_answer 400)
  /\ clickedCoords (panel final) = Scenario.harbour.
Proof.
  destruct (stale_resolution_overwrites
              (run (mounted Scenario.block_a)
                 [Settles 0 (Scenario.served 30.1%float 1%float
                               "2025-03-01T09:00") 100])
              Scenario.campus Scenario.harbour
              Scenario.campus_answer Scenario.harbour_answer 400 300
              eq_refl eq_refl) as [_ [_ [Hw [Hc _]]]].
  split; [exact Hw|exact Hc].
Defined.

(** C1 as stated fails: with the fetch for the campus issued first and
    settled last, the panel ends on the harbour coordinate with the
    campus record; the stale resolution is applied, not discarded. *)
Lemma last_request_does_not_win :
  let final := run (mounted Scenario.block_a) Scenario.race in
  inflight final = [] /\
  clickedCoords (panel final) = Scenario.harbour /\
  weather (panel final) =
  fulfilled_with (fetchWeather Scenario.campus Scenario.campus_answer 400)
  /\
  weather (panel final) <>
  fulfilled_with (fetchWeather Scenario.harbour Scenario.harbour_answer 300).
Proof.
  split; [reflexivity|]. split; [reflexivity|]. split; [reflexivity|].
  intros H.
  apply (f_equal (fun o => match o with
                           | Some r => time r
                           | None => VNull
                           end)) in H.
  vm_compute in H. discriminate H.
Qed.

End PanelFacts.

(** ** More on the adapter *)

Module AdapterLog.
Import Adapter AdapterFacts.

Lemma try_returns_unless_degraded (fetched : exchange) (now : Z) :
  degraded fetched = false ->
  exists r, fetchWeather_try fetched now = Normal r.
Proof.
  unfold degraded, fetchWeather_try, no_current_section.
  destruct fetched as [res|e]; simpl; [|discriminate].
  destruct (ok res); simpl; [|discriminate].
  destruct (json res) as [data|e]; simpl; [|discriminate].
  destruct (get data "current_weather") as [cw|e]; simpl; [|discriminate].
  destruct (truthy cw) eqn:Ht; simpl; [intros _|discriminate].
  destruct (get_truthy cw "temperature" Ht) as [t ->].
  destruct (get_truthy cw "windspeed" Ht) as [ws ->].
  destruct (get_truthy cw "winddirection" Ht) as [wd ->].
  destruct (get_truthy cw "weathercode" Ht) as [wc ->].
  destruct (get_truthy cw "time" Ht) as [tm ->].
  simpl. eauto.
Qed.

(** X1. The adapter writes to the console exactly one error when the
    answer is a failure, and nothing otherwise. A rejected fetch and an
    unreadable body are logged with their own error; a non-success status
    is logged as "Weather fetch failed" whatever the body holds. *)
Theorem failure_logged_once
  (fetched : exchange) (now : Z) (e : js_error) (body : completion value) :
  (degraded fetched = true ->
   exists err, fetchWeather_logged fetched now = [err]) /\
  (degraded fetched = false -> fetchWeather_logged fetched now = []) /\
  fetchWeather_logged (Throw e) now = [e] /\
  fetchWeather_logged (Normal {| ok := true; json := Throw e |}) now = [e] /\
  fetchWeather_logged (Normal {| ok := false; json := body |}) now
  = [mkError "Weather fetch failed"].
Proof.
  unfold fetchWeather_logged.
  split; [|split; [|repeat split]].
  - intros H. destruct (try_throws_when_degraded fetched now H) as [err ->].
    eauto.
  - intros H. destruct (try_returns_unless_degraded fetched now H) as [r ->].
    reflexivity.
Qed.

Lemma failure_logged_once_witness :
  (exists err, fetchWeather_logged Scenario.offline 250 = [err]) /\
  fetchWeather_logged Scenario.campus_answer 250 = [].
Proof.
  destruct (failure_logged_once Scenario.offline 250 (mkError "")
              (Throw (mkError ""))) as [Hfail _].
  destruct (failure_logged_once Scenario.campus_answer 250 (mkError "")
              (Throw (mkError ""))) as [_ [Hgood _]].
  split; [apply Hfail; reflexivity|apply Hgood; reflexivity].
Defined.

(** X2. A successful response whose current-conditions section carries
    none of the five fields yields the very record a failure yields, and
    nothing is logged: a caller cannot tell the two apart. *)
Theorem empty_section_looks_like_failure
  (coord : Coordinate) (res : Response) (data cw : value) (now : Z) :
  ok res = true ->
  json res = Normal data ->
  get data "current_weather" = Normal cw ->
  truthy cw = true ->
  (forall f : field,
      exists v, get cw (service_name f) = Normal v /\ is_nullish v = true) ->
  fetchWeather coord (Normal res) now = Fulfilled (fallback now) /\
  fetchWeather_logged (Normal res) now = [].
Proof.
  intros Hok Hjson Hcw Ht Hall.
  destruct (Hall Temperature) as [t [Et Nt]].
  destruct (Hall Windspeed) as [ws [Ews Nws]].
  destruct (Hall Winddirection) as [wd [Ewd Nwd]].
  destruct (Hall Weathercode) as [wc [Ewc Nwc]].
  destruct (Hall Time) as [tm [Etm Ntm]].
  simpl in Et, Ews, Ewd, Ewc, Etm.
  unfold fetchWeather, fetchWeather_logged, fetchWeather_try, bind.
  rewrite Hok, Hjson, Hcw, Ht, Et, Ews, Ewd, Ewc, Etm. cbn [negb].
  rewrite !coalesce_nullish by assumption. split; reflexivity.
Qed.

Lemma empty_section_looks_like_failure_witness :
  fetchWeather Scenario.campus
    (Normal {| ok := true;
               json := Normal (VObj [("current_weather",
                                      VObj [("is_day", VNum 1%float)])]) |})
    250
  = fetchWeather Scenario.campus Scenario.offline 250.
Proof.
  refine (proj1 (empty_section_looks_like_failure Scenario.campus
            {| ok := true;
               json := Normal (VObj [("current_weather",
                                      VObj [("is_day", VNum 1%float)])]) |}
            (VObj [("current_weather", VObj [("is_day", VNum 1%float)])])
            (VObj [("is_day", VNum 1%float)]) 250
            eq_refl eq_refl eq_refl eq_refl _)).
  intros f. exists VUndefined. destruct f; split; reflexivity.
Defined.

(** X3. The timestamp of the record the adapter returns is truthy, which
    is what the click handler's cache test asks of it, except when the
    service itself sent a [time] that is not null yet falsy (an empty
    string, 0 or false), which the adapter passes through. *)
Theorem timestamp_truthy_unless_service_falsy
  (coord : Coordinate) (fetched : exchange) (now : Z) (r : WeatherRecord) :
  fetchWeather coord fetched now = Fulfilled r ->
  truthy (time r) = true \/
  exists (res : Response) (data cw tm : value),
    fetched = Normal res /\
    json res = Normal data /\
    get data "current_weather" = Normal cw /\
    get cw "time" = Normal tm /\
    is_nullish tm = false /\ truthy tm = false /\ time r = tm.
Proof.
  unfold fetchWeather, fetchWeather_try.
  destruct fetched as [res|e]; simpl;
    [|intros [= <-]; left; reflexivity].
  destruct (ok res); simpl; [|intros [= <-]; left; reflexivity].
  destruct (json res) as [data|e] eqn:Ej; simpl;
    [|intros [= <-]; left; reflexivity].
  destruct (get data "current_weather") as [cw|e] eqn:Ecw; simpl;
    [|intros [= <-]; left; reflexivity].
  destruct (truthy cw); simpl; [|intros [= <-]; left; reflexivity].
  destruct (get cw "temperature"); simpl;
    [|intros [= <-]; left; reflexivity].
  destruct (get cw "windspeed"); simpl;
    [|intros [= <-]; left; reflexivity].
  destruct (get cw "winddirection"); simpl;
    [|intros [= <-]; left; reflexivity].
  destruct (get cw "weathercode"); simpl;
    [|intros [= <-]; left; reflexivity].
  destruct (get cw "time") as [tm|e] eqn:Etm; simpl;
    [|intros [= <-]; left; reflexivity].
  intros [= <-]. simpl.
  destruct (is_nullish tm) eqn:Hn.
  - left. rewrite coalesce_nullish by assumption. reflexivity.
  - rewrite coalesce_present by assumption.
    destruct (truthy tm) eqn:Htm; [left; reflexivity|].
    right. exists res, data, cw, tm. repeat split; assumption.
Qed.

Lemma timestamp_truthy_unless_service_falsy_witness :
  truthy (time (fallback 4000)) = true \/
  exists (res : Response) (data cw tm : value),
    Scenario.offline = Normal res /\
    json res = Normal data /\
    get data "current_weather" = Normal cw /\
    get cw "time" = Normal tm /\
    is_nullish tm = false /\ truthy tm = false /\ time (fallback 4000) = tm.
Proof.
  apply (timestamp_truthy_unless_service_falsy Scenario.campus
           Scenario.offline 4000 (fallback 4000)).
  reflexivity.
Defined.

End AdapterLog.

(** ** More on the condition table *)

Module ConditionTableLabels.
Import ConditionTable ConditionTableFacts.

Lemma documented_pair (table : list (Z * string)) (n : Z) (label : string) :
  documented table n = Some label -> In (n, label) table.
Proof.
  induction table as [|[k l] rest IH]; simpl; [discriminate|].
  destruct (Z.eqb_spec k n) as [->|_].
  - intros [= ->]. now left.
  - intros H. right. auto.
Qed.

Lemma mapped_labels_distinct (n m : Z) (label : string) :
  In (n, label) documented_codes -> In (m, label) documented_codes -> n = m.
Proof.
  simpl. intros Hn Hm.
  repeat (destruct Hn as [Hn|Hn];
          [injection Hn as <- <-;
           repeat (destruct Hm as [Hm|Hm]; [congruence|]);
           contradiction|]).
  contradiction.
Qed.

Lemma mapped_label_not_generated (n : Z) (label suffix : string) :
  In (n, label) documented_codes -> label <> "Code " ++ suffix.
Proof.
  simpl. intros Hn.
  repeat (destruct Hn as [[= <- <-]|Hn]; [discriminate|]).
  contradiction.
Qed.

(** X4. The label tells the code: two safe integer codes with the same
    label are the same code. No two codes of the table share a label, no
    label of the table reads "Code ...", and the generated labels of
    unmapped codes differ with the code. *)
Theorem labelFor_injective (n m : Z) :
  safe_integer n = true ->
  safe_integer m = true ->
  labelFor n = labelFor m -> n = m.
Proof.
  intros _ _. rewrite !labelFor_refines. unfold spec_labelFor.
  destruct (documented documented_codes n) as [ln|] eqn:En;
    destruct (documented documented_codes m) as [lm|] eqn:Em.
  - intros ->. apply documented_pair in En. apply documented_pair in Em.
    eapply mapped_labels_distinct; eassumption.
  - intros H. apply documented_pair in En.
    exfalso. eapply mapped_label_not_generated; eassumption.
  - intros H. apply documented_pair in Em. symmetry in H.
    exfalso. eapply mapped_label_not_generated; eassumption.
  - intros H. simpl in H. injection H as H.
    now apply number_to_string_inj.
Qed.

Lemma labelFor_injective_witness :
  labelFor 61 = labelFor (60 + 1) /\ (61 = 60 + 1)%Z.
Proof.
  split; [reflexivity|].
  apply (labelFor_injective 61 (60 + 1)); reflexivity.
Defined.

End ConditionTableLabels.

(** ** More on the panel *)

Module PanelRuns.
Import Adapter Panel PanelFacts.

Lemma cached_has_record (s : PanelState) (coord : Coordinate) :
  cached s coord = true -> weather s <> None.
Proof. unfold cached. destruct (weather s); [discriminate|discriminate]. Qed.

Lemma resume_has_record (k : suspended) (coord : Coordinate)
  (fetched : exchange) (now : Z) (s : PanelState) :
  weather (resume k (fetchWeather coord fetched now) s) <> None.
Proof.
  destruct (fetchWeather_fulfilled coord fetched now) as [d ->].
  rewrite resume_stores. discriminate.
Qed.

(** Until a record is there, the spinner is on. *)
Lemma step_keeps_spinner (w : World) (e : event) :
  (weather (panel w) = None -> loading (panel w) = true) ->
  weather (panel (step w e)) = None -> loading (panel (step w e)) = true.
Proof.
  intros H. destruct e as [coord|key| | |i fetched now]; simpl.
  - unfold onBuildingClick.
    destruct (cached (panel w) coord) eqn:Hc; simpl; [|reflexivity].
    intros Hn. exfalso. exact (cached_has_record _ _ Hc Hn).
  - unfold onKey. destruct (String.eqb key "Escape"); exact H.
  - exact H.
  - exact H.
  - destruct (nth_error (inflight w) i) as [k|]; [|exact H]. simpl.
    intros Hn. exfalso. exact (resume_has_record _ _ _ _ _ Hn).
Qed.

Lemma fetchWeather_settled_record (coord : Coordinate) (fetched : exchange)
  (now : Z) :
  fetchWeather coord fetched now = Fulfilled (settled_record fetched now).
Proof.
  unfold fetchWeather, settled_record.
  destruct (fetchWeather_try fetched now); reflexivity.
Qed.

Lemma run_keeps_displayable (trace : list event) (w : World) :
  answers_displayable trace = true ->
  (forall r, weather (panel w) = Some r -> displayable r = true) ->
  forall r, weather (panel (run w trace)) = Some r -> displayable r = true.
Proof.
  revert w. induction trace as [|e rest IH]; intros w Ha Hw; [exact Hw|].
  unfold answers_displayable in Ha. simpl in Ha.
  apply andb_true_iff in Ha. destruct Ha as [He Hrest].
  rewrite run_cons. apply IH; [exact Hrest|].
  destruct e as [coord|key| | |i fetched now]; simpl.
  - unfold onBuildingClick. destruct (cached (panel w) coord); exact Hw.
  - unfold onKey. destruct (String.eqb key "Escape"); exact Hw.
  - exact Hw.
  - exact Hw.
  - destruct (nth_error (inflight w) i) as [k|]; [|exact Hw]. simpl.
    rewrite fetchWeather_settled_record, resume_stores.
    intros r [= <-]. exact He.
Qed.

(** X5. As long as the answers of the network give records the grid
    displays (scalars in the fields and a number as condition code, as
    the service documents them and as the fallback record has them), the
    open modal never has an empty body: the loading flag is on as long
    as no record has arrived, so an open panel shows either "Fetching
    weather..." or the weather grid, never nothing and never the error
    text. *)
Theorem modal_never_blank (coords : Coordinate) (trace : list event) :
  answers_displayable trace = true ->
  (weather (panel (run (mounted coords) trace)) = None ->
   loading (panel (run (mounted coords) trace)) = true) /\
  (modalOpen (panel (run (mounted coords) trace)) = true ->
   render (panel (run (mounted coords) trace)) = OpenLoading \/
   render (panel (run (mounted coords) trace)) = OpenLoaded).
Proof.
  intros Ha.
  assert (Hs : weather (panel (run (mounted coords) trace)) = None ->
               loading (panel (run (mounted coords) trace)) = true).
  { apply (run_invariant
             (fun w => weather (panel w) = None -> loading (panel w) = true));
      [exact step_keeps_spinner|reflexivity]. }
  assert (He : error (panel (run (mounted coords) trace)) = "").
  { apply (run_invariant (fun w => error (panel w) = ""));
      [exact step_keeps_error_empty|reflexivity]. }
  assert (Hd : forall r,
             weather (panel (run (mounted coords) trace)) = Some r ->
             displayable r = true).
  { apply run_keeps_displayable; [exact Ha|]. intros r. discriminate. }
  split; [exact Hs|].
  unfold render. intros ->. simpl.
  destruct (loading (panel (run (mounted coords) trace))); [now left|].
  rewrite He. simpl.
  destruct (weather (panel (run (mounted coords) trace))) as [r|].
  - rewrite (Hd r eq_refl). now right.
  - now discriminate Hs.
Qed.

Lemma modal_never_blank_witness :
  render (panel (run (mounted Scenario.block_a)
                   [Settles 0 Scenario.campus_answer 100;
                    Click Scenario.block_a])) = OpenLoading \/
  render (panel (run (mounted Scenario.block_a)
                   [Settles 0 Scenario.campus_answer 100;
                    Click Scenario.block_a])) = OpenLoaded.
Proof.
  apply (modal_never_blank Scenario.block_a
           [Settles 0 Scenario.campus_answer 100; Click Scenario.block_a]).
  - reflexivity.
  - reflexivity.
Defined.

Lemma click_then_settle (w : World) (c : Coordinate) (x : exchange)
  (now : Z) :
  snd (onBuildingClick (panel w) c) = Some c ->
  run w [Click c; Settles (List.length (inflight w)) x now] =
  {| panel := onBuildingClick_resume (fetchWeather c x now)
                (fst (onBuildingClick (panel w) c));
     inflight := inflight w |}.
Proof.
  intros Hc. unfold run. cbn [fold_left].
  assert (E1 : step w (Click c) =
               {| panel := fst (onBuildingClick (panel w) c);
                  inflight := inflight w ++ [InClick c] |}).
  { simpl. rewrite (click_miss _ _ Hc). reflexivity. }
  rewrite E1.
  rewrite (step_settles _ (List.length (inflight w)) (InClick c)).
  - cbn [panel inflight resume requested].
    now rewrite remove_nth_appended, app_nil_r.
  - apply nth_error_appended.
Qed.

(** X6. A failed fetch is not retried by clicking again. When the fetch a
    click issued for a coordinate ends in a failure, the fallback record
    is stored and shown as loaded, and a further click on that coordinate
    meets the cache rule: it issues no fetch. *)
Theorem failed_fetch_not_retried
  (w : World) (c : Coordinate) (x : exchange) (now : Z) :
  snd (onBuildingClick (panel w) c) = Some c ->
  degraded x = true ->
  strict_eq (lat c) (lat c) = true ->
  strict_eq (lng c) (lng c) = true ->
  let w' := run w [Click c; Settles (List.length (inflight w)) x now] in
  weather (panel w') = Some (fallback now) /\
  render (panel w') = OpenLoaded /\
  snd (onBuildingClick (panel w') c) = None /\
  step w' (Click c) = w'.
Proof.
  intros Hc Hx Hlat Hlng w'.
  assert (Ew : w' = {| panel := onBuildingClick_resume (Fulfilled (fallback now))
                                  (fst (onBuildingClick (panel w) c));
                       inflight := inflight w |}).
  { unfold w'. rewrite (click_then_settle w c x now Hc).
    unfold fetchWeather.
    destruct (AdapterFacts.try_throws_when_degraded x now Hx) as [e ->].
    reflexivity. }
  rewrite (click_miss _ _ Hc) in Ew. cbn [fst] in Ew.
  assert (Hcached : cached (panel w') c = true).
  { rewrite Ew. unfold cached. simpl. now rewrite Hlat, Hlng. }
  assert (Hclick : onBuildingClick (panel w') c = (panel w', None)).
  { unfold onBuildingClick. rewrite Hcached. rewrite Ew. reflexivity. }
  split; [rewrite Ew; reflexivity|].
  split; [rewrite Ew; reflexivity|].
  split; [now rewrite Hclick|].
  simpl. rewrite Hclick. rewrite app_nil_r. now destruct w'.
Qed.

Lemma failed_fetch_not_retried_witness :
  let w := run (mounted Scenario.block_a)
             [Settles 0 Scenario.campus_answer 100] in
  let w' := run w [Click Scenario.campus; Settles 0 Scenario.offline 900] in
  weather (panel w') = Some (fallback 900) /\
  snd (onBuildingClick (panel w') Scenario.campus) = None.
Proof.
  destruct (failed_fetch_not_retried
              (run (mounted Scenario.block_a)
                 [Settles 0 Scenario.campus_answer 100])
              Scenario.campus Scenario.offline 900
              eq_refl eq_refl eq_refl eq_refl) as [Hw [_ [Hreq _]]].
  split; [exact Hw|exact Hreq].
Defined.

Lemma click_on_cached (w : World) (c : Coordinate) :
  cached (panel w) c = true ->
  step w (Click c) =
  {| panel := setModalOpen true (setClickedCoords c (panel w));
     inflight := inflight w |}.
Proof.
  intros H. simpl. unfold onBuildingClick. rewrite H. simpl.
  now rewrite app_nil_r.
Qed.

(** X7. Once the cache rule holds for a coordinate, no sequence of clicks
    on that coordinate and of closings (escape, backdrop, Close button)
    issues a fetch or changes the record or the loading flag: the data
    shown for the coordinate is never refreshed by re-opening the panel. *)
Theorem reopening_never_refetches
  (w : World) (c : Coordinate) (trace : list event) :
  cache_rule (panel w) c ->
  strict_eq (lat c) (lat c) = true ->
  strict_eq (lng c) (lng c) = true ->
  Forall (fun e => e = Click c \/ closes e = true) trace ->
  weather (panel (run w trace)) = weather (panel w) /\
  loading (panel (run w trace)) = loading (panel w) /\
  inflight (run w trace) = inflight w /\
  cache_rule (panel (run w trace)) c.
Proof.
  intros Hrule Hlat Hlng Htrace. revert w Hrule.
  induction Htrace as [|e rest He _ IH]; intros w Hrule.
  - repeat split; try reflexivity. exact Hrule.
  - rewrite run_cons.
    assert (Hstep : weather (panel (step w e)) = weather (panel w) /\
                    loading (panel (step w e)) = loading (panel w) /\
                    inflight (step w e) = inflight w /\
                    cache_rule (panel (step w e)) c).
    { destruct He as [->|He].
      - pose proof Hrule as Hc. apply cached_iff in Hc.
        rewrite (click_on_cached w c Hc). simpl.
        do 3 (split; [reflexivity|]).
        destruct Hrule as [r [Hr [Ht _]]].
        exists r. simpl. auto.
      - destruct (closes_panel w e He) as [Hp Hi].
        rewrite Hp, Hi. simpl. do 3 (split; [reflexivity|]).
        destruct Hrule as [r [Hr [Ht [H1 H2]]]].
        exists r. simpl. auto. }
    destruct Hstep as [H1 [H2 [H3 H4]]].
    destruct (IH (step w e) H4) as [I1 [I2 [I3 I4]]].
    split; [congruence|split; [congruence|split; [congruence|exact I4]]].
Qed.

Lemma reopening_never_refetches_witness :
  let w := run (mounted Scenario.campus)
             [Settles 0 Scenario.campus_answer 100] in
  inflight (run w [Click Scenario.campus; KeyDown "Escape";
                   Click Scenario.campus; BackdropClick;
                   Click Scenario.campus]) = [].
Proof.
  apply (reopening_never_refetches
           (run (mounted Scenario.campus)
              [Settles 0 Scenario.campus_answer 100])
           Scenario.campus
           [Click Scenario.campus; KeyDown "Escape";
            Click Scenario.campus; BackdropClick; Click Scenario.campus]).
  - eexists. repeat split; reflexivity.
  - reflexivity.
  - reflexivity.
  - repeat (apply Forall_cons;
            [first [left; reflexivity|right; reflexivity]|]).
    apply Forall_nil.
Defined.

Lemma remove_nth_Forall {A : Type} (P : A -> Prop) (i : nat) (l : list A) :
  Forall P l -> Forall P (remove_nth i l).
Proof.
  intros H. revert i. induction H as [|x l Hx Hl IH]; intros i.
  - destruct i; constructor.
  - destruct i; simpl; [exact Hl|constructor; auto].
Qed.

Lemma quiet_step_keeps_default (coords : Coordinate) (w : World) (e : event) :
  is_click e = false ->
  clickedCoords (panel w) = coords /\
  Forall (fun k => k = InMount coords) (inflight w) ->
  clickedCoords (panel (step w e)) = coords /\
  Forall (fun k => k = InMount coords) (inflight (step w e)).
Proof.
  intros He [Hc Hf]. destruct e as [coord|key| | |i fetched now]; simpl.
  - discriminate.
  - unfold onKey. destruct (String.eqb key "Escape"); auto.
  - auto.
  - auto.
  - destruct (nth_error (inflight w) i) as [k|] eqn:Ek; [|auto]. simpl.
    split; [|now apply remove_nth_Forall].
    apply nth_error_In in Ek.
    rewrite Forall_forall in Hf. rewrite (Hf k Ek). simpl.
    destruct (fetchWeather_fulfilled coords fetched now) as [d ->].
    reflexivity.
Qed.

Lemma quiet_run_keeps_default (coords : Coordinate) (trace : list event)
  (w : World) :
  forallb (fun e => negb (is_click e)) trace = true ->
  clickedCoords (panel w) = coords /\
  Forall (fun k => k = InMount coords) (inflight w) ->
  clickedCoords (panel (run w trace)) = coords.
Proof.
  revert w. induction trace as [|e rest IH]; intros w Hq Hw.
  - exact (proj1 Hw).
  - simpl in Hq. apply andb_true_iff in Hq. destruct Hq as [He Hrest].
    rewrite run_cons. apply IH; [exact Hrest|].
    apply quiet_step_keeps_default; [now apply negb_true_iff|exact Hw].
Qed.

(** X8. The pre-fetch of the mount effect warms the default coordinate
    only. Whatever happens before the first click (the pre-fetch settling
    or not, key presses), a first click on a coordinate that differs from
    the [coords] prop issues a fetch and shows the loading view; a first
    click on the [coords] prop itself, once the pre-fetch has settled with
    a timestamped record that the grid displays, issues none and shows
    that record. *)
Theorem prefetch_warms_default_only
  (coords c : Coordinate) (trace : list event) (x : exchange) (now : Z) :
  (forallb (fun e => negb (is_click e)) trace = true ->
   strict_eq (lat coords) (lat c) && strict_eq (lng coords) (lng c) = false ->
   snd (onBuildingClick (panel (run (mounted coords) trace)) c) = Some c /\
   render (fst (onBuildingClick (panel (run (mounted coords) trace)) c))
   = OpenLoading) /\
  (strict_eq (lat coords) (lat c) && strict_eq (lng coords) (lng c) = true ->
   (forall r, fetchWeather coords x now = Fulfilled r ->
              truthy (time r) = true /\ displayable r = true) ->
   snd (onBuildingClick
          (panel (run (mounted coords) [Settles 0 x now])) c) = None /\
   render (fst (onBuildingClick
                  (panel (run (mounted coords) [Settles 0 x now])) c))
   = OpenLoaded).
Proof.
  split.
  - intros Hq Hne.
    assert (Hc : clickedCoords (panel (run (mounted coords) trace)) = coords).
    { apply quiet_run_keeps_default; [exact Hq|].
      split; [reflexivity|]. repeat constructor. }
    assert (Hmiss : cached (panel (run (mounted coords) trace)) c = false).
    { unfold cached. rewrite Hc.
      destruct (weather (panel (run (mounted coords) trace)));
        [|reflexivity].
      rewrite <- andb_assoc, Hne. apply andb_false_r. }
    unfold onBuildingClick. rewrite Hmiss. split; reflexivity.
  - intros Heq Ht.
    destruct (fetchWeather_fulfilled coords x now) as [r E].
    destruct (Ht r E) as [Ht' Hd]. clear Ht. rename Ht' into Ht.
    assert (Hhit : cached (panel (run (mounted coords) [Settles 0 x now])) c
                   = true).
    { simpl. rewrite E. unfold cached. simpl.
      now rewrite Ht, <- andb_assoc, Heq. }
    unfold onBuildingClick. rewrite Hhit. simpl. rewrite E.
    split; [reflexivity|]. unfold render. simpl. now rewrite Hd.
Qed.

Lemma prefetch_warms_default_only_witness :
  snd (onBuildingClick
         (panel (run (mounted Scenario.block_a)
                   [Settles 0 Scenario.campus_answer 100; KeyDown "Escape"]))
         Scenario.campus) = Some Scenario.campus /\
  snd (onBuildingClick
         (panel (run (mounted Scenario.campus)
                   [Settles 0 Scenario.campus_answer 100]))
         Scenario.campus) = None.
Proof.
  destruct (prefetch_warms_default_only Scenario.block_a Scenario.campus
              [Settles 0 Scenario.campus_answer 100; KeyDown "Escape"]
              Scenario.campus_answer 100) as [Hcold _].
  destruct (prefetch_warms_default_only Scenario.campus Scenario.campus
              [] Scenario.campus_answer 100) as [_ Hwarm].
  split.
  - apply Hcold; reflexivity.
  - apply Hwarm; [reflexivity|].
    intros r E. vm_compute in E. injection E as <-. split; reflexivity.
Defined.

(** X9. A click made before the pre-fetch has settled loses its
    coordinate. The panel opens, but when the pre-fetch settles, before
    or after the click's own fetch, it sets the selected coordinate back
    to the [coords] prop: the panel ends open on the default coordinate,
    with the record of whichever fetch settled last. *)
Theorem early_click_loses_coordinate
  (coords b : Coordinate) (xb x0 : exchange) (tb t0 : Z) :
  let prefetch_last :=
    run (mounted coords) [Click b; Settles 1 xb tb; Settles 0 x0 t0] in
  let prefetch_first :=
    run (mounted coords) [Click b; Settles 0 x0 t0; Settles 0 xb tb] in
  modalOpen (panel prefetch_last) = true /\
  clickedCoords (panel prefetch_last) = coords /\
  weather (panel prefetch_last) = fulfilled_with (fetchWeather coords x0 t0)
  /\
  modalOpen (panel prefetch_first) = true /\
  clickedCoords (panel prefetch_first) = coords /\
  weather (panel prefetch_first) = fulfilled_with (fetchWeather b xb tb).
Proof.
  destruct (fetchWeather_fulfilled coords x0 t0) as [d0 E0].
  destruct (fetchWeather_fulfilled b xb tb) as [db Eb].
  unfold run. cbn [fold_left].
  change (step (mounted coords) (Click b)) with
    {| panel := setError "" (setLoading true
                  (setModalOpen true
                     (setClickedCoords b (panel (mounted coords)))));
       inflight := [InMount coords; InClick b] |}.
  cbn [step nth_error inflight panel requested resume remove_nth].
  rewrite E0, Eb. cbn. repeat split.
Qed.

End PanelRuns.

(** ** Click or drag *)

Module ViewerFacts.
Import Adapter Panel Building Viewer.

Lemma interact_app (v : Viewer.Viewer) (a b : list input) :
  interact v (a ++ b) = interact (interact v a) b.
Proof. apply fold_left_app. Qed.

Lemma travelled_from (e : PointerEvent) (r r' : Refs) :
  pointerDownPos r = pointerDownPos r' -> travelled e r = travelled e r'.
Proof. unfold travelled. intros ->. reflexivity. Qed.

Lemma move_keeps_press (e : PointerEvent) (r : Refs) :
  pointerDownPos (handlePointerMove e r) = pointerDownPos r.
Proof.
  unfold handlePointerMove.
  destruct (PrimFloat.ltb 2 (travelled e r)); reflexivity.
Qed.

Lemma move_keeps_dragging (e : PointerEvent) (r : Refs) :
  isDragging r = true -> isDragging (handlePointerMove e r) = true.
Proof.
  unfold handlePointerMove.
  destruct (PrimFloat.ltb 2 (travelled e r)); auto.
Qed.

(** Moves leave the panel alone and keep the place of the press. *)
Lemma moves_keep_press (moves : list PointerEvent) (v : Viewer.Viewer) :
  pointerDownPos (refs (interact v (map PointerMove moves)))
  = pointerDownPos (refs v) /\
  weatherPanel (interact v (map PointerMove moves)) = weatherPanel v.
Proof.
  revert v. induction moves as [|e rest IH]; intros v; [split; reflexivity|].
  change (interact v (map PointerMove (e :: rest)))
    with (interact (react v (PointerMove e)) (map PointerMove rest)).
  destruct (IH (react v (PointerMove e))) as [H1 H2].
  rewrite H1, H2. split; [apply move_keeps_press|reflexivity].
Qed.

Lemma small_moves_keep_refs (press : PointerEvent)
  (moves : list PointerEvent) (v : Viewer.Viewer) :
  pointerDownPos (refs v) = (clientX press, clientY press) ->
  forallb (within_threshold press) moves = true ->
  refs (interact v (map PointerMove moves)) = refs v.
Proof.
  revert v. induction moves as [|e rest IH]; intros v Hpos Hsmall;
    [reflexivity|].
  simpl in Hsmall. apply andb_true_iff in Hsmall.
  destruct Hsmall as [He Hrest].
  assert (Hmove : handlePointerMove e (refs v) = refs v).
  { unfold handlePointerMove.
    rewrite (travelled_from e (refs v) (handlePointerDown press initial_refs))
      by (rewrite Hpos; reflexivity).
    unfold within_threshold in He. apply negb_true_iff in He.
    now rewrite He. }
  change (interact v (map PointerMove (e :: rest)))
    with (interact (react v (PointerMove e)) (map PointerMove rest)).
  rewrite IH.
  - cbn [react refs]. exact Hmove.
  - cbn [react refs]. now rewrite Hmove.
  - exact Hrest.
Qed.

Lemma idle_keeps_dragging (rest : list input) (v : Viewer.Viewer) :
  isDragging (refs v) = true ->
  forallb idle_pointer rest = true ->
  weatherPanel (interact v rest) = weatherPanel v.
Proof.
  revert v. induction rest as [|i rest IH]; intros v Hd Hidle;
    [reflexivity|].
  simpl in Hidle. apply andb_true_iff in Hidle.
  destruct Hidle as [Hi Hrest].
  change (interact v (i :: rest)) with (interact (react v i) rest).
  destruct i; try discriminate; cbn [react].
  - rewrite IH; auto.
  - rewrite IH; auto.
  - rewrite IH; cbn [refs weatherPanel]; auto using move_keeps_dragging.
  - unfold handlePointerUp. rewrite Hd. cbn [negb]. auto.
Qed.

(** X10. A press and a release on the building with no move beyond two
    pixels from the press in between is a click: it reaches the panel as
    a click on the building's coordinate, whatever was dragged or hovered
    before the press, and opens the modal on that coordinate. *)
Theorem tap_opens_panel
  (v : Viewer.Viewer) (press release : PointerEvent)
  (moves : list PointerEvent) :
  forallb (within_threshold press) moves = true ->
  weatherPanel
    (interact v (PointerDown press :: map PointerMove moves
                                   ++ [PointerUp release]))
  = step (weatherPanel v) (Click building_coordinate) /\
  modalOpen
    (panel (weatherPanel
              (interact v (PointerDown press :: map PointerMove moves
                                             ++ [PointerUp release]))))
  = true /\
  clickedCoords
    (panel (weatherPanel
              (interact v (PointerDown press :: map PointerMove moves
                                             ++ [PointerUp release]))))
  = building_coordinate.
Proof.
  intros Hsmall.
  assert (E : weatherPanel
                (interact v (PointerDown press :: map PointerMove moves
                                               ++ [PointerUp release]))
              = step (weatherPanel v) (Click building_coordinate)).
  { change (interact v (PointerDown press :: map PointerMove moves
                                          ++ [PointerUp release]))
      with (interact (react v (PointerDown press))
              (map PointerMove moves ++ [PointerUp release])).
    rewrite interact_app.
    set (v1 := react v (PointerDown press)).
    pose proof (small_moves_keep_refs press moves v1 eq_refl Hsmall) as Hr.
    destruct (moves_keep_press moves v1) as [_ Hp].
    simpl. unfold handlePointerUp. rewrite Hr. simpl. now rewrite Hp. }
  rewrite E. split; [reflexivity|]. simpl.
  unfold onBuildingClick.
  destruct (cached (panel (weatherPanel v)) building_coordinate);
    split; reflexivity.
Qed.

Lemma tap_opens_panel_witness :
  modalOpen
    (panel (weatherPanel
              (interact (started Scenario.block_a)
                 [PointerDown Samples.press; PointerMove Samples.nudge;
                  PointerUp Samples.nudge]))) = true.
Proof.
  apply (tap_opens_panel (started Scenario.block_a) Samples.press
           Samples.nudge [Samples.nudge]).
  reflexivity.
Defined.

(** X11. Once the pointer has moved more than two pixels away from where
    it was pressed, the gesture is a drag for good: moving back,
    releasing, hovering and releasing again leave the panel untouched
    until the next press. Dragging to orbit the camera never opens the
    weather modal or issues a fetch. *)
Theorem drag_never_reaches_panel
  (v : Viewer.Viewer) (press far : PointerEvent)
  (before : list PointerEvent) (rest : list input) :
  within_threshold press far = false ->
  forallb idle_pointer rest = true ->
  weatherPanel
    (interact v (PointerDown press :: map PointerMove before
                                   ++ PointerMove far :: rest))
  = weatherPanel v.
Proof.
  intros Hfar Hidle.
  change (interact v (PointerDown press :: map PointerMove before
                                        ++ PointerMove far :: rest))
    with (interact (react v (PointerDown press))
            (map PointerMove before ++ PointerMove far :: rest)).
  rewrite interact_app.
  set (v1 := react v (PointerDown press)).
  destruct (moves_keep_press before v1) as [Hpos Hp].
  set (v2 := interact v1 (map PointerMove before)) in *.
  change (interact v2 (PointerMove far :: rest))
    with (interact (react v2 (PointerMove far)) rest).
  rewrite idle_keeps_dragging; [exact Hp| |exact Hidle].
  simpl. unfold handlePointerMove.
  rewrite (travelled_from far (refs v2) (handlePointerDown press initial_refs))
    by (rewrite Hpos; reflexivity).
  unfold within_threshold in Hfar. apply negb_false_iff in Hfar.
  now rewrite Hfar.
Qed.

Lemma drag_never_reaches_panel_witness :
  weatherPanel
    (interact (started Scenario.block_a)
       [PointerDown Samples.press; PointerMove Samples.sweep;
        PointerMove Samples.press; PointerUp Samples.press;
        PointerOut; PointerUp Samples.press])
  = mounted Scenario.block_a.
Proof.
  apply (drag_never_reaches_panel (started Scenario.block_a) Samples.press
           Samples.sweep []
           [PointerMove Samples.press; PointerUp Samples.press;
            PointerOut; PointerUp Samples.press]);
    reflexivity.
Defined.

End ViewerFacts.

(** ** The loaded model *)

Module GltfFacts.
Import Gltf.

(** X12. The first run of the load effect marks the model as loaded,
    calls [onReady], and leaves every node in place: a node that is not a
    mesh is unchanged; a mesh casts and receives shadows and has a name,
    its own if it had one and "BuildingMesh" otherwise; materials are not
    touched. *)
Theorem load_prepares_meshes (scene : Scene) (i : nat) (obj : Object3D) :
  nth_error (objects scene) i = Some obj ->
  fst (fst (load_effect false scene)) = true /\
  snd (load_effect false scene) = true /\
  materials (snd (fst (load_effect false scene))) = materials scene /\
  List.length (objects (snd (fst (load_effect false scene))))
  = List.length (objects scene) /\
  exists obj' : Object3D,
    nth_error (objects (snd (fst (load_effect false scene)))) i = Some obj' /\
    isMesh obj' = isMesh obj /\
    material obj' = material obj /\
    (isMesh obj = false -> obj' = obj) /\
    (isMesh obj = true ->
     castShadow obj' = true /\ receiveShadow obj' = true /\
     name obj' <> "" /\
     (name obj <> "" -> name obj' = name obj) /\
     (name obj = "" -> name obj' = "BuildingMesh")).
Proof.
  intros H. simpl.
  split; [reflexivity|]. split; [reflexivity|]. split; [reflexivity|].
  split; [apply length_map|].
  exists (prepare obj). split; [now apply map_nth_error|].
  unfold prepare. destruct (isMesh obj) eqn:Hm; simpl.
  - split; [reflexivity|]. split; [reflexivity|].
    split; [discriminate|]. intros _.
    split; [reflexivity|]. split; [reflexivity|].
    destruct (String.eqb_spec (name obj) "") as [E|E].
    + split; [discriminate|]. split; [contradiction|reflexivity].
    + split; [exact E|]. split; [reflexivity|contradiction].
  - split; [exact Hm|]. split; [reflexivity|].
    split; [reflexivity|discriminate].
Qed.

Lemma load_prepares_meshes_witness :
  exists obj' : Object3D,
    nth_error (objects (snd (fst (load_effect false Samples.model)))) 1
    = Some obj' /\
    name obj' = "BuildingMesh" /\ castShadow obj' = true.
Proof.
  destruct (load_prepares_meshes Samples.model 1
              {| isMesh := true; name := ""; castShadow := false;
                 receiveShadow := false; material := Some 0 |} eq_refl)
    as [_ [_ [_ [_ [obj' [Hn [_ [_ [_ Hmesh]]]]]]]]].
  destruct (Hmesh eq_refl) as [Hc [_ [_ [_ Hname]]]].
  exists obj'. split; [exact Hn|]. split; [apply Hname; reflexivity|exact Hc].
Defined.

Lemma rerun_loaded (n : nat) (scene : Scene) :
  rerun n true scene = (true, scene).
Proof. induction n as [|n IH]; simpl; [reflexivity|exact IH]. Qed.

(** X13. The load effect acts once. However often it re-runs (its
    dependencies change with every render of [Scene]), the model is
    raised by 1.5 a single time and prepared a single time: any number of
    runs leaves what the first run left. *)
Theorem load_acts_once (n : nat) (scene : Scene) :
  rerun (S n) false scene = rerun 1 false scene /\
  position_y (snd (rerun (S n) false scene))
  = PrimFloat.add (position_y scene) 1.5%float /\
  objects (snd (rerun (S n) false scene)) = map prepare (objects scene).
Proof.
  assert (E : rerun (S n) false scene = rerun 1 false scene).
  { simpl. apply rerun_loaded. }
  rewrite E. repeat split.
Qed.

Lemma nth_error_replace_nth {A : Type} (j : nat) (x : A) (l : list A)
  (i : nat) :
  nth_error (replace_nth j x l) i =
  match nth_error l i with
  | Some y => Some (if Nat.eqb i j then x else y)
  | None => None
  end.
Proof.
  revert i j. induction l as [|y l IH]; intros i j.
  - destruct i, j; reflexivity.
  - destruct j, i; simpl; try reflexivity.
    + destruct (nth_error l i); reflexivity.
    + apply IH.
Qed.

Lemma Forall_replace_nth {A : Type} (P : A -> Prop) (j : nat) (x : A)
  (l : list A) :
  P x -> Forall P l -> Forall P (replace_nth j x l).
Proof.
  intros Hx H. revert j. induction H as [|y l Hy Hl IH]; intros j.
  - destruct j; constructor.
  - destruct j; simpl; constructor; auto.
Qed.

Lemma settle_sound (h : bool) (mat : Material) :
  sound mat ->
  highlight_material h mat = Normal (settle h mat) /\
  sound (settle h mat) /\
  settle h (settle h mat) = settle h mat.
Proof.
  unfold sound, settle, highlight_material.
  destruct mat as [[e|] [b|]]; destruct h; simpl; intros H;
    try (exfalso; apply H; [discriminate|reflexivity]);
    (split; [reflexivity|]); (split; [|reflexivity]);
    intros Hb; first [discriminate|exfalso; apply Hb; reflexivity].
Qed.

Lemma settle_shown (h : bool) (st : option bool) (mat : Material) :
  baseEmissive mat = None ->
  settle h (shown st mat) = shown (after_hover st h) mat.
Proof.
  unfold settle, highlight_material, shown, after_hover, resting.
  destruct mat as [[e|] b]; simpl; intros ->;
    destruct st as [[|]|]; destruct h; reflexivity.
Qed.

(** One traversal settles each material some mesh uses, once, and leaves
    the others. *)
Lemma traverse_pointwise (h : bool) (objs : list Object3D) :
  forall store : list Material,
    Forall sound store ->
    exists store' : list Material,
      highlight_objects h objs store = Normal store' /\
      Forall sound store' /\
      forall i : nat,
        nth_error store' i =
        match nth_error store i with
        | Some mat => Some (if existsb (uses i) objs then settle h mat
                            else mat)
        | None => None
        end.
Proof.
  induction objs as [|obj rest IH]; intros store Hs.
  - exists store. split; [reflexivity|]. split; [exact Hs|].
    intros i. simpl. destruct (nth_error store i); reflexivity.
  - assert (Hex : forall i, existsb (uses i) (obj :: rest)
                            = (isMesh obj
                               && match material obj with
                                  | Some j => Nat.eqb i j
                                  | None => false
                                  end) || existsb (uses i) rest)
      by reflexivity.
    cbn [highlight_objects].
    destruct (isMesh obj) eqn:Hm.
    + destruct (material obj) as [j|] eqn:Hmat.
      * destruct (nth_error store j) as [mat|] eqn:Hj.
        -- assert (Hmat_sound : sound mat).
           { rewrite Forall_forall in Hs. apply Hs.
             eapply nth_error_In; eassumption. }
           destruct (settle_sound h mat Hmat_sound) as [Hn [Hs' Hidem]].
           rewrite Hn. cbn [bind].
           destruct (IH (replace_nth j (settle h mat) store)) as
             [store' [Hrun [Hsound Hpt]]];
             [now apply Forall_replace_nth|].
           exists store'. split; [exact Hrun|]. split; [exact Hsound|].
           intros i. rewrite Hpt, nth_error_replace_nth, Hex.
           destruct (nth_error store i) as [m|] eqn:Hi; [|reflexivity].
           cbn [andb].
           destruct (Nat.eqb_spec i j) as [->|Hne]; cbn [orb].
           ++ rewrite Hj in Hi. injection Hi as <-.
              rewrite Hidem.
              destruct (existsb (uses j) rest); reflexivity.
           ++ reflexivity.
        -- destruct (IH store Hs) as [store' [Hrun [Hsound Hpt]]].
           exists store'. split; [exact Hrun|]. split; [exact Hsound|].
           intros i. rewrite Hpt, Hex.
           destruct (nth_error store i) as [m|] eqn:Hi; [|reflexivity].
           cbn [andb].
           destruct (Nat.eqb_spec i j) as [->|Hne]; cbn [orb];
             [|reflexivity].
           rewrite Hj in Hi. discriminate.
      * destruct (IH store Hs) as [store' [Hrun [Hsound Hpt]]].
        exists store'. split; [exact Hrun|]. split; [exact Hsound|].
        intros i. rewrite Hpt, Hex. reflexivity.
    + destruct (IH store Hs) as [store' [Hrun [Hsound Hpt]]].
      exists store'. split; [exact Hrun|]. split; [exact Hsound|].
      intros i. rewrite Hpt, Hex. reflexivity.
Qed.

(** The state of every material after a sequence of hover changes. *)
Lemma hover_sequence_pointwise (objs : list Object3D) (values : list bool) :
  forall (st : option bool) (store0 store : list Material),
    pristine store0 = true ->
    (forall i : nat,
        nth_error store i =
        match nth_error store0 i with
        | Some mat => Some (if existsb (uses i) objs then shown st mat
                            else mat)
        | None => None
        end) ->
    exists store' : list Material,
      hover_sequence values store objs = Normal store' /\
      forall i : nat,
        nth_error store' i =
        match nth_error store0 i with
        | Some mat =>
            Some (if existsb (uses i) objs
                  then shown (fold_left after_hover values st) mat
                  else mat)
        | None => None
        end.
Proof.
  induction values as [|h rest IH]; intros st store0 store Hp Hst.
  - exists store. split; [reflexivity|exact Hst].
  - assert (Hbase : forall i mat,
               nth_error store0 i = Some mat -> baseEmissive mat = None).
    { intros i mat Hi. apply nth_error_In in Hi.
      unfold pristine in Hp. rewrite forallb_forall in Hp.
      specialize (Hp mat Hi). destruct (baseEmissive mat);
        [discriminate|reflexivity]. }
    assert (Hsound : Forall sound store).
    { apply Forall_forall. intros m Hin.
      apply In_nth_error in Hin. destruct Hin as [i Hi].
      rewrite Hst in Hi.
      destruct (nth_error store0 i) as [mat|] eqn:H0; [|discriminate].
      injection Hi as <-. pose proof (Hbase i mat H0) as Hb.
      unfold sound. destruct (existsb (uses i) objs).
      - destruct st as [lit|]; simpl; [discriminate|].
        rewrite Hb. intros Hc. now contradiction Hc.
      - rewrite Hb. intros Hc. now contradiction Hc. }
    destruct (traverse_pointwise h objs store Hsound)
      as [store1 [Hrun [_ Hpt]]].
    cbn [hover_sequence]. rewrite Hrun. cbn [bind fold_left].
    apply (IH (after_hover st h) store0 store1 Hp).
    intros i. rewrite Hpt, Hst.
    destruct (nth_error store0 i) as [mat|] eqn:H0; [|reflexivity].
    destruct (existsb (uses i) objs); [|reflexivity].
    now rewrite (settle_shown h st mat (Hbase i mat H0)).
Qed.

Lemma hover_ends_lit (values : list bool) (st : option bool) :
  fold_left after_hover (values ++ [true]) st = Some true.
Proof. now rewrite fold_left_app. Qed.

Lemma hover_ends_unlit (values : list bool) (st : option bool) :
  fold_left after_hover (values ++ [true; false]) st = Some false.
Proof. now rewrite fold_left_app. Qed.

(** X14. Hovering is undone. On a model loaded without saved colours, no
    sequence of highlight changes makes the effect throw; whatever the
    history, when the highlight has just been switched on every material
    used by a mesh glows, and when it has been switched off again every
    such material is back to its own emissive colour (black if it had
    none), also where several meshes share one material. Materials no
    mesh uses are never touched. *)
Theorem hover_is_undone
  (objs : list Object3D) (store : list Material) (history : list bool) :
  pristine store = true ->
  exists lit unlit : list Material,
    hover_sequence (history ++ [true]) store objs = Normal lit /\
    hover_sequence (history ++ [true; false]) store objs = Normal unlit /\
    List.length lit = List.length store /\
    List.length unlit = List.length store /\
    forall (i : nat) (mat : Material),
      nth_error store i = Some mat ->
      exists mat_lit mat_unlit : Material,
        nth_error lit i = Some mat_lit /\
        nth_error unlit i = Some mat_unlit /\
        (existsb (uses i) objs = true ->
         emissive mat_lit = Some glow /\
         emissive mat_unlit = Some (resting mat)) /\
        (existsb (uses i) objs = false ->
         mat_lit = mat /\ mat_unlit = mat).
Proof.
  intros Hp.
  assert (Hstart : forall i : nat,
             nth_error store i =
             match nth_error store i with
             | Some mat => Some (if existsb (uses i) objs
                                 then shown None mat else mat)
             | None => None
             end).
  { intros i. destruct (nth_error store i); [|reflexivity].
    destruct (existsb (uses i) objs); reflexivity. }
  destruct (hover_sequence_pointwise objs (history ++ [true]) None
              store store Hp Hstart) as [lit [Hlit Plit]].
  destruct (hover_sequence_pointwise objs (history ++ [true; false]) None
              store store Hp Hstart) as [unlit [Hunlit Punlit]].
  assert (Hlen : forall l : list Material,
             (forall i, nth_error l i =
                        match nth_error store i with
                        | Some mat =>
                            Some (if existsb (uses i) objs
                                  then shown (Some true) mat else mat)
                        | None => None
                        end) \/
             (forall i, nth_error l i =
                        match nth_error store i with
                        | Some mat =>
                            Some (if existsb (uses i) objs
                                  then shown (Some false) mat else mat)
                        | None => None
                        end) ->
             List.length l = List.length store).
  { intros l Hl.
    destruct (Nat.lt_trichotomy (List.length l) (List.length store))
      as [Hlt|[Heq|Hgt]]; [|exact Heq|]; exfalso.
    - apply nth_error_Some in Hlt.
      assert (Hnone : nth_error l (List.length l) = None)
        by (apply nth_error_None; lia).
      destruct (nth_error store (List.length l)) as [m|] eqn:Em;
        [|now apply Hlt].
      destruct Hl as [Hl|Hl]; rewrite Hl, Em in Hnone; discriminate.
    - apply nth_error_Some in Hgt.
      assert (Hnone : nth_error store (List.length store) = None)
        by (apply nth_error_None; lia).
      destruct Hl as [Hl|Hl]; rewrite Hl, Hnone in Hgt; now apply Hgt. }
  rewrite hover_ends_lit in Plit. rewrite hover_ends_unlit in Punlit.
  exists lit, unlit.
  split; [exact Hlit|]. split; [exact Hunlit|].
  split; [apply Hlen; now left|]. split; [apply Hlen; now right|].
  intros i mat Hi.
  specialize (Plit i). specialize (Punlit i). rewrite Hi in Plit, Punlit.
  eexists. eexists. split; [exact Plit|]. split; [exact Punlit|].
  destruct (existsb (uses i) objs); split; intros H; try discriminate;
    split; reflexivity.
Qed.

Lemma hover_is_undone_witness :
  exists lit unlit : list Material,
    hover_sequence [false; true] (materials Samples.model)
      (objects Samples.model) = Normal lit /\
    hover_sequence [false; true; false] (materials Samples.model)
      (objects Samples.model) = Normal unlit /\
    map emissive unlit = [Some Samples.amber; Some black; Some Samples.amber].
Proof.
  destruct (hover_is_undone (objects Samples.model)
              (materials Samples.model) [false] eq_refl)
    as [lit [unlit [Hlit [Hunlit _]]]].
  exists lit, unlit. split; [exact Hlit|]. split; [exact Hunlit|].
  vm_compute in Hunlit. injection Hunlit as <-. reflexivity.
Defined.

End GltfFacts.
